(** * AgentDisplay: the incremental render buffer of [core/display.py]

    A shallow embedding of the class [AgentDisplay] and the properties its
    specification states about it.

    - Python [str] is a sequence of Unicode code points, and [len], slicing
      and [replace] count code points: a text is a list of code points.
    - The values a producer puts into the event dict are [None] or a text;
      an object passed as [args] or [result] is represented by the text
      [str()] gives for it, which is all the class ever reads of it.
    - [time.time()] returns a float; a clock reading is the rational that
      the float denotes, and the difference of two readings is taken
      exactly.
    - The destination (the Telegram bot of [self.context]) and the clock
      form the outside world of the class; they are threaded explicitly. *)

From Stdlib Require Import String.
From Stdlib Require Import List Sorted Ascii Bool Arith NArith Lia QArith Lqa.
Import ListNotations.
Local Open Scope nat_scope.

(** ** Python values and texts *)

Definition char := N.
Definition str := list char.

(** An ASCII literal of the source as a text. *)
Definition lit (s : string) : str :=
  map N_of_ascii (list_ascii_of_string s).
Arguments lit s%_string.

Definition nl : str := [10%N].

Fixpoint str_eqb (a b : str) : bool :=
  match a, b with
  | [], [] => true
  | x :: a', y :: b' => N.eqb x y && str_eqb a' b'
  | _, _ => false
  end.

Inductive pyval :=
| PNone
| PStr (s : str).

(** Truth value testing: [None] and the empty text are false. *)
Definition truthy (v : pyval) : bool :=
  match v with
  | PNone => false
  | PStr [] => false
  | PStr (_ :: _) => true
  end.

(** [str(v)], also what an f-string field [{v}] inserts. *)
Definition py_str (v : pyval) : str :=
  match v with
  | PNone => lit "None"
  | PStr s => s
  end.

(** [v == "literal"]. *)
Definition py_eq (v : pyval) (s : str) : bool :=
  match v with
  | PNone => false
  | PStr t => str_eqb t s
  end.

(** ["".join(parts)]. *)
Definition join (parts : list str) : str := concat parts.

(** [text.replace(old, new)] for a pattern [old] of one character, the only
    kind the class uses: every occurrence is replaced, left to right. *)
Definition replace (old : char) (new : str) (text : str) : str :=
  flat_map (fun c => if N.eqb c old then new else [c]) text.

(** [text[-n:]] for [n > 0]: the last [n] characters, the whole text when it
    has fewer. *)
Definition slice_last (n : nat) (text : str) : str :=
  skipn (length text - n) text.

Definition amp : char := 38%N.
Definition lt : char := 60%N.
Definition gt : char := 62%N.

(** ** The state of an [AgentDisplay] *)

(** The first component of a log tuple: ['thinking'], ['tool_call'] or
    ['tool_result']. *)
Inductive log_type := thinking | tool_call | tool_result.

Definition log_entry := (log_type * pyval)%type.

Record AgentDisplay := mkDisplay {
  logs : list log_entry;
  final_response_parts : list str;
  last_render_time : Q;
  render_interval : Q;
  current_thinking_buffer : list str
}.

(** [__init__]; the context, chat id and message id are fixed for the life
    of the object and belong to the sink. *)
Definition __init__ : AgentDisplay :=
  {| logs := [];
     final_response_parts := [];
     last_render_time := 0%Q;
     render_interval := 2%Q;
     current_thinking_buffer := [] |}.

(** ** Text assembly *)

Definition _sanitize_html (text : pyval) : str :=
  if negb (truthy text) then []
  else replace gt (lit "&gt;")
         (replace lt (lit "&lt;")
            (replace amp (lit "&amp;") (py_str text))).

(** The line prefixes as the source file spells them (code points). *)
Definition thought_head : str :=
  [240; 376; 167; 160]%N ++ lit " <i>Thought:</i> ".
Definition exec_head : str :=
  [240; 376; 8250; 160]%N ++ lit " <b>Exec:</b> <code>".
Definition exec_tail : str := lit "</code>" ++ nl.
Definition result_head : str :=
  [226; 339; 8230]%N ++ lit " <b>Result:</b> ".
Definition thinking_head : str :=
  [240; 376; 167; 160]%N ++ lit " <i>Thinking...</i> ".
Definition omitted_marker : str := lit "...(earlier logs)..." ++ nl.
Definition ellipsis : str := lit "...".

Definition max_log_len : nat := 2000.

(** [str(content)[:200] + ("..." if len(str(content)) > 200 else "")]. *)
Definition truncate_result (content : pyval) : str :=
  firstn 200 (py_str content)
  ++ (if 200 <? length (py_str content) then ellipsis else []).

(** One iteration of the loop over [self.logs]. *)
Definition render_entry (log_text : str) (entry : log_entry) : str :=
  let '(type_, content) := entry in
  match type_ with
  | thinking =>
      let safe_content := _sanitize_html content in
      log_text ++ thought_head ++ safe_content ++ nl ++ nl
  | tool_call =>
      let safe_content := _sanitize_html content in
      log_text ++ exec_head ++ safe_content ++ exec_tail
  | tool_result =>
      let safe_content := _sanitize_html (PStr (truncate_result content)) in
      log_text ++ result_head ++ safe_content ++ nl ++ nl
  end.

(** The log section as assembled before the length cap: the loop, then the
    live thinking line. *)
Definition log_section (self : AgentDisplay) : str :=
  let current_think := join (current_thinking_buffer self) in
  let log_text := fold_left render_entry (logs self) [] in
  if truthy (PStr current_think) then
    let safe_think := _sanitize_html (PStr current_think) in
    log_text ++ thinking_head ++ safe_think ++ nl
  else log_text.

(** The cap on the log section. *)
Definition cap_log (log_text : str) : str :=
  if max_log_len <? length log_text
  then omitted_marker ++ slice_last max_log_len log_text
  else log_text.

Definition _build_text (self : AgentDisplay) : str :=
  let log_text := log_section self in
  let log_text := cap_log log_text in
  let final_text := join (final_response_parts self) in
  let full_text := [] in
  let full_text :=
    if truthy (PStr log_text)
    then full_text ++ lit "<blockquote>" ++ log_text
                   ++ lit "</blockquote>" ++ nl ++ nl
    else full_text in
  let full_text := full_text ++ _sanitize_html (PStr final_text) in
  if negb (truthy (PStr full_text)) then lit "..." else full_text.


(** ** The outside world: the clock and the message sink *)

(** An exception of class [Exception] raised by the bot's
    [edit_message_text] (a [telegram.error.TelegramError]), with its
    message. *)
Inductive exn := Exception (msg : str).

Record World := mkWorld {
  clock : nat -> Q;                 (* the k-th reading of [time.time()] *)
  reads : nat;                      (* readings taken so far *)
  sink : nat -> str -> option exn;  (* the k-th edit call on a text:
                                       [None] succeeds, [Some e] raises *)
  edits : list str                  (* texts passed to the sink, oldest first *)
}.

(** ** A state and exception monad over the object and the world *)

Inductive completion (A : Type) :=
| Returns (a : A)
| Raises (e : exn).
Arguments Returns {A} a.
Arguments Raises {A} e.

Definition M (A : Type) : Type :=
  AgentDisplay -> World -> completion A * AgentDisplay * World.

Definition ret {A} (a : A) : M A := fun self w => (Returns a, self, w).

Definition bind {A B} (m : M A) (k : A -> M B) : M B :=
  fun self w =>
    match m self w with
    | (Returns a, self', w') => k a self' w'
    | (Raises e, self', w') => (Raises e, self', w')
    end.

Declare Scope py_scope.
Delimit Scope py_scope with py.
Notation "x <- m ;; k" := (bind m (fun x => k))
  (at level 61, m at next level, right associativity) : py_scope.
Notation "m ;; k" := (bind m (fun _ => k))
  (at level 61, right associativity) : py_scope.
Local Open Scope py_scope.

Definition get_self : M AgentDisplay := fun self w => (Returns self, self, w).

Definition modify (f : AgentDisplay -> AgentDisplay) : M unit :=
  fun self w => (Returns tt, f self, w).

(** [try: body  except Exception as e: handler]. *)
Definition try_except {A} (body : M A) (handler : exn -> M A) : M A :=
  fun self w =>
    match body self w with
    | (Returns a, self', w') => (Returns a, self', w')
    | (Raises e, self', w') => handler e self' w'
    end.

(** The world after one more clock reading. *)
Definition tick (w : World) : World :=
  {| clock := clock w; reads := S (reads w);
     sink := sink w; edits := edits w |}.

(** The world after one more edit call, on [text]. *)
Definition sent (text : str) (w : World) : World :=
  {| clock := clock w; reads := reads w;
     sink := sink w; edits := edits w ++ [text] |}.

(** [time.time()]. *)
Definition time_time : M Q :=
  fun self w => (Returns (clock w (reads w)), self, tick w).

(** [await self.context.bot.edit_message_text(..., text=text, ...)]. *)
Definition edit_message_text (text : str) : M unit :=
  fun self w =>
    match sink w (length (edits w)) text with
    | None => (Returns tt, self, sent text w)
    | Some e => (Raises e, self, sent text w)
    end.

Definition outcome {A} (r : completion A * AgentDisplay * World)
  : completion A :=
  fst (fst r).
Definition display {A} (r : completion A * AgentDisplay * World) : AgentDisplay :=
  snd (fst r).
Definition world {A} (r : completion A * AgentDisplay * World) : World :=
  snd r.

(** ** Field updates *)

Definition set_logs (l : list log_entry) (self : AgentDisplay) :=
  {| logs := l;
     final_response_parts := final_response_parts self;
     last_render_time := last_render_time self;
     render_interval := render_interval self;
     current_thinking_buffer := current_thinking_buffer self |}.

Definition set_final_response_parts (p : list str) (self : AgentDisplay) :=
  {| logs := logs self;
     final_response_parts := p;
     last_render_time := last_render_time self;
     render_interval := render_interval self;
     current_thinking_buffer := current_thinking_buffer self |}.

Definition set_last_render_time (t : Q) (self : AgentDisplay) :=
  {| logs := logs self;
     final_response_parts := final_response_parts self;
     last_render_time := t;
     render_interval := render_interval self;
     current_thinking_buffer := current_thinking_buffer self |}.

Definition set_current_thinking_buffer (b : list str) (self : AgentDisplay) :=
  {| logs := logs self;
     final_response_parts := final_response_parts self;
     last_render_time := last_render_time self;
     render_interval := render_interval self;
     current_thinking_buffer := b |}.

(** ** Rendering under the throttle *)

Definition Qlt_bool (a b : Q) : bool := negb (Qle_bool b a).

(** The calls of one producer come one after the other, so the lock of
    [async with self.lock] is free whenever it is taken and is not part of
    the state. *)
Definition _try_render (force : bool) : M unit :=
  now <- time_time ;;
  self <- get_self ;;
  if negb force
     && Qlt_bool (now - last_render_time self) (render_interval self)
  then ret tt
  else
    try_except
      (self <- get_self ;;
       let text := _build_text self in
       edit_message_text text ;;
       t <- time_time ;;
       modify (set_last_render_time t))
      (fun e => ret tt).

(** ** Events and [update] *)

(** The event dict, as [state_update.get] reads it: a key that is absent
    reads as [None]. *)
Record Event := mkEvent {
  status : pyval;
  content : pyval;
  tool : pyval;
  args : pyval;
  result : pyval
}.

(** The flush that the [tool_use], [final_stream] and [final] branches each
    spell out. *)
Definition flush_thinking (self : AgentDisplay) : AgentDisplay :=
  match current_thinking_buffer self with
  | [] => self
  | _ :: _ =>
      set_current_thinking_buffer []
        (set_logs
           (logs self ++ [(thinking, PStr (join (current_thinking_buffer self)))])
           self)
  end.

(** The branches of [update]: the new fields and [should_render]. *)
Definition apply_event (state_update : Event) (self : AgentDisplay)
  : AgentDisplay * bool :=
  let status := status state_update in
  let content := content state_update in
  if py_eq status (lit "thinking") then
    if truthy content then
      (set_current_thinking_buffer
         (current_thinking_buffer self ++ [py_str content]) self, true)
    else (self, false)
  else if py_eq status (lit "tool_use") then
    let self := flush_thinking self in
    let tool_name := tool state_update in
    let args := args state_update in
    (set_logs
       (logs self
        ++ [(tool_call,
             PStr (py_str tool_name ++ lit "(" ++ py_str args ++ lit ")"))])
       self, true)
  else if py_eq status (lit "observation") then
    let result := result state_update in
    (set_logs (logs self ++ [(tool_result, result)]) self, true)
  else if py_eq status (lit "final_stream") then
    let self := flush_thinking self in
    if truthy content then
      (set_final_response_parts
         (final_response_parts self ++ [py_str content]) self, true)
    else (self, false)
  else if py_eq status (lit "final") then
    let self := flush_thinking self in
    (set_final_response_parts
       (if truthy content then [py_str content] else []) self, true)
  else (self, false).

Definition update (state_update : Event) : M unit :=
  should_render <-
    (fun self w =>
       let '(self', should_render) := apply_event state_update self in
       (Returns should_render, self', w)) ;;
  if should_render : bool then _try_render false else ret tt.

(** A producer feeding events one after the other. *)
Fixpoint updates (events : list Event) : M unit :=
  match events with
  | [] => ret tt
  | e :: rest => update e ;; updates rest
  end.

(** ** Event constructors and kinds *)

Definition ev_thinking (c : str) : Event :=
  mkEvent (PStr (lit "thinking")) (PStr c) PNone PNone PNone.
Definition ev_tool_use (name a : pyval) : Event :=
  mkEvent (PStr (lit "tool_use")) PNone name a PNone.
Definition ev_observation (r : pyval) : Event :=
  mkEvent (PStr (lit "observation")) PNone PNone PNone r.
Definition ev_final_stream (c : pyval) : Event :=
  mkEvent (PStr (lit "final_stream")) c PNone PNone PNone.
Definition ev_final (c : pyval) : Event :=
  mkEvent (PStr (lit "final")) c PNone PNone PNone.

Definition is_thinking (e : Event) : bool := py_eq (status e) (lit "thinking").
Definition is_final (e : Event) : bool := py_eq (status e) (lit "final").

(** The events that flush the thinking buffer. *)
Definition is_flush (e : Event) : bool :=
  py_eq (status e) (lit "tool_use")
  || py_eq (status e) (lit "final_stream")
  || py_eq (status e) (lit "final").

(** Whether [update] sets [should_render] on an event; the state plays no
    part in it (see [apply_event_dirty]). *)
Definition dirty (e : Event) : bool := snd (apply_event e __init__).

(** A world for examples: the clock readings listed, then [later] for ever;
    the sink answers by the position of the call. *)
Definition world_of (readings : list Q) (later : Q)
    (answers : list (option exn)) : World :=
  {| clock := fun k => nth k readings later;
     reads := 0;
     sink := fun k _ => nth k answers None;
     edits := [] |}.

(** ** Auxiliary notions for the statements *)

(** A text with none of the characters that [_sanitize_html] rewrites. *)
Definition plain (t : str) : bool :=
  forallb (fun c => negb (N.eqb c amp || N.eqb c lt || N.eqb c gt)) t.

(** The fields a sequence of events leaves, the renders left aside. *)
Definition apply_events (events : list Event) (self : AgentDisplay)
  : AgentDisplay :=
  fold_left (fun s e => fst (apply_event e s)) events self.

(** The quote block that [_build_text] puts around a non-empty log text. *)
Definition quote_block (log_text : str) : str :=
  lit "<blockquote>" ++ log_text ++ lit "</blockquote>" ++ nl ++ nl.

(** What the three replacements of [_sanitize_html] amount to on one
    character. *)
Definition escape_char (c : char) : str :=
  if N.eqb c amp then lit "&amp;"
  else if N.eqb c lt then lit "&lt;"
  else if N.eqb c gt then lit "&gt;"
  else [c].

(** The fragments kept by the object are never empty, and no thought in the
    log has an empty text. *)
Definition well_formed (self : AgentDisplay) : Prop :=
  Forall (fun f => f <> []) (current_thinking_buffer self)
  /\ Forall (fun f => f <> []) (final_response_parts self)
  /\ Forall (fun entry => fst entry = thinking ->
                          exists t, snd entry = PStr t /\ t <> [])
       (logs self).

Example build_text_fresh : _build_text __init__ = lit "...".
Proof. reflexivity. Qed.

Example fresh_thinking_renders :
  edits (world (update (ev_thinking (lit "hm")) __init__
                  (world_of [100%Q; 100%Q] 200%Q [])))
  = [lit "<blockquote>" ++ thinking_head ++ lit "hm" ++ nl
       ++ lit "</blockquote>" ++ nl ++ nl].
Proof. vm_compute. reflexivity. Qed.

(** * Properties *)

(** ** Texts *)

Lemma replace_app old new a b :
  replace old new (a ++ b) = replace old new a ++ replace old new b.
Proof. unfold replace. apply flat_map_app. Qed.

Lemma sanitize_PStr (t : str) :
  _sanitize_html (PStr t)
  = replace gt (lit "&gt;")
      (replace lt (lit "&lt;") (replace amp (lit "&amp;") t)).
Proof. destruct t; reflexivity. Qed.

Lemma sanitize_app (a b : str) :
  _sanitize_html (PStr (a ++ b))
  = _sanitize_html (PStr a) ++ _sanitize_html (PStr b).
Proof. rewrite !sanitize_PStr, !replace_app. reflexivity. Qed.

Lemma sanitize_char (c : char) :
  negb (N.eqb c amp || N.eqb c lt || N.eqb c gt) = true ->
  _sanitize_html (PStr [c]) = [c].
Proof.
  intros H. rewrite sanitize_PStr. unfold replace. cbn [flat_map].
  destruct (N.eqb c amp) eqn:Ea; [discriminate|].
  destruct (N.eqb c lt) eqn:El; [discriminate|].
  destruct (N.eqb c gt) eqn:Eg; [discriminate|].
  cbn [app flat_map]. rewrite El. cbn [app flat_map]. rewrite Eg. reflexivity.
Qed.

Lemma sanitize_plain (t : str) : plain t = true -> _sanitize_html (PStr t) = t.
Proof.
  induction t as [|c t IH]; intros H; [reflexivity|].
  cbn [plain forallb] in H. apply andb_true_iff in H as [Hc Ht].
  rewrite (sanitize_app [c] t : _sanitize_html (PStr (c :: t)) = _),
    (sanitize_char c Hc), (IH Ht).
  reflexivity.
Qed.

Lemma plain_firstn n t : plain t = true -> plain (firstn n t) = true.
Proof.
  revert n. induction t as [|c t IH]; intros [|n] H; try reflexivity.
  cbn [plain forallb firstn] in *. apply andb_true_iff in H as [Hc Ht].
  rewrite Hc. exact (IH n Ht).
Qed.

Lemma slice_last_length n t :
  n <= length t -> length (slice_last n t) = n.
Proof. intros H. unfold slice_last. rewrite length_skipn. lia. Qed.

Lemma slice_last_suffix n t :
  firstn (length t - n) t ++ slice_last n t = t.
Proof. apply firstn_skipn. Qed.

(** [_build_text] in terms of its parts. *)
Lemma build_text_unfold self :
  _build_text self
  = let log_text := cap_log (log_section self) in
    let final := _sanitize_html (PStr (join (final_response_parts self))) in
    match log_text with
    | [] => match final with [] => lit "..." | _ :: _ => final end
    | _ :: _ => quote_block log_text ++ final
    end.
Proof.
  unfold _build_text. cbv zeta.
  destruct (cap_log (log_section self)) as [|c l] eqn:E.
  - cbn [truthy app].
    destruct (_sanitize_html (PStr (join (final_response_parts self))));
      reflexivity.
  - cbn [truthy]. unfold quote_block.
    rewrite app_nil_l, <- !app_assoc. reflexivity.
Qed.

(** C6: a log section of more than 2000 characters is cut from the front
    down to its last 2000 characters, which follow the omission marker in
    the output; a log section of at most 2000 characters appears whole. *)
Theorem log_section_cap (self : AgentDisplay) :
  let log_text := log_section self in
  let final := _sanitize_html (PStr (join (final_response_parts self))) in
  (2000 < length log_text ->
     let kept := slice_last 2000 log_text in
     length kept = 2000
     /\ (exists dropped, log_text = dropped ++ kept)
     /\ cap_log log_text = omitted_marker ++ kept
     /\ _build_text self = quote_block (omitted_marker ++ kept) ++ final)
  /\ (length log_text <= 2000 ->
        cap_log log_text = log_text
        /\ (log_text <> [] ->
            _build_text self = quote_block log_text ++ final)).
Proof.
  intros log_text final. split.
  - intros Hlen kept.
    assert (Hcap : cap_log log_text = omitted_marker ++ kept).
    { unfold cap_log, max_log_len.
      destruct (Nat.ltb_spec 2000 (length log_text)); [reflexivity | lia]. }
    split; [apply slice_last_length; lia|].
    split; [exists (firstn (length log_text - 2000) log_text);
            symmetry; apply slice_last_suffix|].
    split; [exact Hcap|].
    rewrite build_text_unfold. cbv zeta. fold log_text. rewrite Hcap.
    reflexivity.
  - intros Hlen.
    assert (Hcap : cap_log log_text = log_text).
    { unfold cap_log, max_log_len.
      destruct (Nat.ltb_spec 2000 (length log_text)); [lia | reflexivity]. }
    split; [exact Hcap|].
    intros Hne. rewrite build_text_unfold. cbv zeta. fold log_text.
    rewrite Hcap. destruct log_text; [congruence | reflexivity].
Qed.

Lemma log_section_cap_witness :
  let long := set_current_thinking_buffer [repeat 97%N 2500] __init__ in
  let short := set_current_thinking_buffer [repeat 97%N 100] __init__ in
  (length (slice_last 2000 (log_section long)) = 2000
   /\ _build_text long
      = quote_block (omitted_marker ++ slice_last 2000 (log_section long)))
  /\ _build_text short = quote_block (log_section short).
Proof.
  intros long short. split.
  - destruct (proj1 (log_section_cap long)) as [Hlen [_ [_ Hb]]].
    + apply Nat.ltb_lt. vm_compute. reflexivity.
    + split; [exact Hlen|]. rewrite Hb. apply app_nil_r.
  - destruct (proj2 (log_section_cap short)) as [_ Hb].
    + apply Nat.leb_le. vm_compute. reflexivity.
    + rewrite Hb by discriminate. apply app_nil_r.
Defined.

(** C7, as the code has it: the payload of a tool result is cut to its first
    200 characters, with the marker appended, only when it is longer than 200
    characters (so at 250), and is kept whole otherwise (so at 150); the cut
    text is then HTML-escaped like all other content, which leaves a payload
    without [&], [<] and [>] as it is. *)
Theorem tool_result_truncation (payload log_text : str) :
  (200 < length payload ->
     render_entry log_text (tool_result, PStr payload)
     = log_text ++ result_head
         ++ _sanitize_html (PStr (firstn 200 payload)) ++ ellipsis ++ nl ++ nl)
  /\ (length payload <= 200 ->
        render_entry log_text (tool_result, PStr payload)
        = log_text ++ result_head
            ++ _sanitize_html (PStr payload) ++ nl ++ nl)
  /\ (plain payload = true ->
        _sanitize_html (PStr (firstn 200 payload)) = firstn 200 payload
        /\ _sanitize_html (PStr payload) = payload).
Proof.
  split; [|split].
  - intros H. unfold render_entry, truncate_result. cbn [py_str].
    destruct (Nat.ltb_spec 200 (length payload)); [|lia].
    rewrite sanitize_app, <- !app_assoc. reflexivity.
  - intros H. unfold render_entry, truncate_result. cbn [py_str].
    destruct (Nat.ltb_spec 200 (length payload)); [lia|].
    rewrite app_nil_r, firstn_all2 by exact H. reflexivity.
  - intros H. split; apply sanitize_plain; [apply plain_firstn|]; exact H.
Qed.

Lemma tool_result_truncation_witness :
  let long := repeat 97%N 250 in
  let short := repeat 97%N 150 in
  render_entry [] (tool_result, PStr long)
  = result_head ++ firstn 200 long ++ ellipsis ++ nl ++ nl
  /\ render_entry [] (tool_result, PStr short)
     = result_head ++ short ++ nl ++ nl.
Proof.
  intros long short.
  destruct (tool_result_truncation long []) as [Hl [_ Hp]].
  destruct (tool_result_truncation short []) as [_ [Hs Hq]].
  split.
  - rewrite Hl by (vm_compute; lia).
    rewrite (proj1 (Hp eq_refl)). reflexivity.
  - rewrite Hs by (vm_compute; lia).
    rewrite (proj2 (Hq eq_refl)). reflexivity.
Defined.

(** C7 as worded fails on a payload with markup characters: 250 times [<]
    does not render as its first 200 characters and the marker, and 150
    times [<] does not render unmodified. *)
Lemma tool_result_escaped_counterexample :
  let long := repeat lt 250 in
  let short := repeat lt 150 in
  length long = 250 /\ length short = 150
  /\ render_entry [] (tool_result, PStr long)
     <> result_head ++ firstn 200 long ++ ellipsis ++ nl ++ nl
  /\ render_entry [] (tool_result, PStr short)
     <> result_head ++ short ++ nl ++ nl.
Proof.
  cbv zeta. split; [reflexivity|]. split; [reflexivity|].
  split; intros H; apply (f_equal (@length char)) in H;
    vm_compute in H; discriminate H.
Qed.

(** ** [update] and [_try_render], step by step *)

Lemma str_eqb_eq (a b : str) : str_eqb a b = true -> a = b.
Proof.
  revert b. induction a as [|x a IH]; intros [|y b] H; try discriminate.
  - reflexivity.
  - cbn [str_eqb] in H. apply andb_true_iff in H as [Hx Ha].
    apply N.eqb_eq in Hx. rewrite Hx, (IH b Ha). reflexivity.
Qed.

Lemma py_eq_eq v s : py_eq v s = true -> v = PStr s.
Proof.
  destruct v as [|t]; [discriminate|]. cbn [py_eq]. intros H.
  rewrite (str_eqb_eq t s H). reflexivity.
Qed.

Lemma Qlt_bool_iff a b : Qlt_bool a b = true <-> (a < b)%Q.
Proof.
  unfold Qlt_bool. rewrite negb_true_iff. split.
  - intros H. apply Qnot_le_lt. intros Hle.
    apply Qle_bool_iff in Hle. congruence.
  - intros H. destruct (Qle_bool b a) eqn:E; [|reflexivity].
    apply Qle_bool_iff in E. exfalso. exact (Qlt_not_le _ _ H E).
Qed.

Lemma Qlt_bool_false_iff a b : Qlt_bool a b = false <-> (b <= a)%Q.
Proof.
  unfold Qlt_bool. rewrite negb_false_iff. apply Qle_bool_iff.
Qed.

Lemma try_render_unfold force self w :
  _try_render force self w
  = if negb force
       && Qlt_bool (clock w (reads w) - last_render_time self)
            (render_interval self)
    then (Returns tt, self, tick w)
    else match sink w (length (edits w)) (_build_text self) with
         | None =>
             (Returns tt,
              set_last_render_time (clock w (S (reads w))) self,
              tick (sent (_build_text self) (tick w)))
         | Some _ => (Returns tt, self, sent (_build_text self) (tick w))
         end.
Proof.
  unfold _try_render, bind, time_time, get_self, try_except,
    edit_message_text, modify, ret.
  destruct (negb force
            && Qlt_bool (clock w (reads w) - last_render_time self)
                 (render_interval self)); [reflexivity|].
  cbn [tick clock reads sink edits].
  destruct (sink w (length (edits w)) (_build_text self)); reflexivity.
Qed.

Lemma update_unfold e self w :
  update e self w
  = if snd (apply_event e self)
    then _try_render false (fst (apply_event e self)) w
    else (Returns tt, fst (apply_event e self), w).
Proof.
  unfold update, bind. destruct (apply_event e self) as [s' [|]]; reflexivity.
Qed.

(** *** The branches of [update], one equation each *)

Lemma apply_event_thinking e self :
  is_thinking e = true ->
  apply_event e self
  = if truthy (content e)
    then (set_current_thinking_buffer
            (current_thinking_buffer self ++ [py_str (content e)]) self, true)
    else (self, false).
Proof.
  intros H. apply py_eq_eq in H. unfold apply_event. rewrite H. reflexivity.
Qed.

Lemma apply_event_tool_use e self :
  py_eq (status e) (lit "tool_use") = true ->
  apply_event e self
  = (set_logs
       (logs (flush_thinking self)
        ++ [(tool_call,
             PStr (py_str (tool e) ++ lit "(" ++ py_str (args e) ++ lit ")"))])
       (flush_thinking self), true).
Proof.
  intros H. apply py_eq_eq in H. unfold apply_event. rewrite H. reflexivity.
Qed.

Lemma apply_event_observation e self :
  py_eq (status e) (lit "observation") = true ->
  apply_event e self
  = (set_logs (logs self ++ [(tool_result, result e)]) self, true).
Proof.
  intros H. apply py_eq_eq in H. unfold apply_event. rewrite H. reflexivity.
Qed.

Lemma apply_event_final_stream e self :
  py_eq (status e) (lit "final_stream") = true ->
  apply_event e self
  = if truthy (content e)
    then (set_final_response_parts
            (final_response_parts (flush_thinking self)
             ++ [py_str (content e)])
            (flush_thinking self), true)
    else (flush_thinking self, false).
Proof.
  intros H. apply py_eq_eq in H. unfold apply_event. rewrite H. reflexivity.
Qed.

Lemma apply_event_final e self :
  is_final e = true ->
  apply_event e self
  = (set_final_response_parts
       (if truthy (content e) then [py_str (content e)] else [])
       (flush_thinking self), true).
Proof.
  intros H. apply py_eq_eq in H. unfold apply_event. rewrite H. reflexivity.
Qed.

Lemma apply_event_other e self :
  is_thinking e = false ->
  is_flush e = false ->
  py_eq (status e) (lit "observation") = false ->
  apply_event e self = (self, false).
Proof.
  unfold is_thinking, is_flush. intros Ht Hf Ho.
  apply orb_false_iff in Hf as [Hf Hfin].
  apply orb_false_iff in Hf as [Htool Hfs].
  unfold apply_event. rewrite Ht, Htool, Ho, Hfs, Hfin. reflexivity.
Qed.

Lemma flush_thinking_time self :
  last_render_time (flush_thinking self) = last_render_time self
  /\ render_interval (flush_thinking self) = render_interval self.
Proof.
  unfold flush_thinking. destruct (current_thinking_buffer self); split;
    reflexivity.
Qed.

Lemma flush_thinking_set_time t self :
  flush_thinking (set_last_render_time t self)
  = set_last_render_time t (flush_thinking self).
Proof.
  unfold flush_thinking. cbn [set_last_render_time current_thinking_buffer].
  destruct (current_thinking_buffer self); reflexivity.
Qed.

Lemma apply_event_set_time e t self :
  apply_event e (set_last_render_time t self)
  = (set_last_render_time t (fst (apply_event e self)),
     snd (apply_event e self)).
Proof.
  unfold apply_event. rewrite !flush_thinking_set_time.
  repeat match goal with
         | |- context [if ?c then _ else _] => destruct c
         end; reflexivity.
Qed.

Lemma apply_event_dirty e self : snd (apply_event e self) = dirty e.
Proof.
  unfold dirty, apply_event.
  repeat match goal with
         | |- context [if ?c then _ else _] => destruct c
         end; reflexivity.
Qed.

Lemma apply_event_time e self :
  last_render_time (fst (apply_event e self)) = last_render_time self
  /\ render_interval (fst (apply_event e self)) = render_interval self.
Proof.
  destruct (flush_thinking_time self) as [Ht Hi].
  unfold apply_event.
  repeat match goal with
         | |- context [if ?c then _ else _] => destruct c
         end; cbn [fst set_logs set_final_response_parts
                   set_current_thinking_buffer last_render_time
                   render_interval]; auto.
Qed.

Lemma build_text_set_time t self :
  _build_text (set_last_render_time t self) = _build_text self.
Proof. reflexivity. Qed.

(** [update] never raises, and leaves the fields that [apply_event] computes,
    with at most the render time advanced. *)
Lemma update_display e self w :
  outcome (update e self w) = Returns tt
  /\ exists t,
       display (update e self w)
       = set_last_render_time t (fst (apply_event e self)).
Proof.
  rewrite update_unfold.
  destruct (snd (apply_event e self)).
  - rewrite try_render_unfold.
    destruct (negb false && _).
    + split; [reflexivity|].
      exists (last_render_time (fst (apply_event e self))).
      destruct (fst (apply_event e self)); reflexivity.
    + destruct (sink w _ _).
      * split; [reflexivity|].
        exists (last_render_time (fst (apply_event e self))).
        destruct (fst (apply_event e self)); reflexivity.
      * split; [reflexivity|]. eexists. reflexivity.
  - split; [reflexivity|].
    exists (last_render_time (fst (apply_event e self))).
    destruct (fst (apply_event e self)); reflexivity.
Qed.

Lemma apply_events_set_time es t self :
  apply_events es (set_last_render_time t self)
  = set_last_render_time t (apply_events es self).
Proof.
  revert self. induction es as [|e es IH]; intros self; [reflexivity|].
  unfold apply_events in *. cbn [fold_left].
  rewrite apply_event_set_time. cbn [fst]. apply IH.
Qed.

Lemma apply_events_cons e es self :
  apply_events (e :: es) self = apply_events es (fst (apply_event e self)).
Proof. reflexivity. Qed.

Lemma apply_events_snoc es e self :
  apply_events (es ++ [e]) self = fst (apply_event e (apply_events es self)).
Proof. unfold apply_events. rewrite fold_left_app. reflexivity. Qed.

Lemma updates_display es self w :
  outcome (updates es self w) = Returns tt
  /\ exists t,
       display (updates es self w)
       = set_last_render_time t (apply_events es self).
Proof.
  revert self w. induction es as [|e es IH]; intros self w.
  - split; [reflexivity|]. exists (last_render_time self).
    destruct self; reflexivity.
  - cbn [updates]. unfold bind.
    destruct (update_display e self w) as [Ho [t Ht]].
    destruct (update e self w) as [[o s'] w'].
    unfold outcome, display in Ho, Ht. cbn [fst snd] in Ho, Ht. subst o s'.
    destruct (IH (set_last_render_time t (fst (apply_event e self))) w')
      as [Ho' [t' Ht']].
    split; [exact Ho'|]. exists t'. rewrite Ht'.
    rewrite apply_events_set_time. reflexivity.
Qed.

Lemma updates_fields es self w :
  logs (display (updates es self w)) = logs (apply_events es self)
  /\ final_response_parts (display (updates es self w))
     = final_response_parts (apply_events es self)
  /\ current_thinking_buffer (display (updates es self w))
     = current_thinking_buffer (apply_events es self)
  /\ _build_text (display (updates es self w))
     = _build_text (apply_events es self).
Proof.
  destruct (updates_display es self w) as [_ [t Ht]]. rewrite Ht.
  repeat split; reflexivity.
Qed.

Lemma update_fields e self w :
  logs (display (update e self w)) = logs (fst (apply_event e self))
  /\ final_response_parts (display (update e self w))
     = final_response_parts (fst (apply_event e self))
  /\ current_thinking_buffer (display (update e self w))
     = current_thinking_buffer (fst (apply_event e self)).
Proof.
  destruct (update_display e self w) as [_ [t Ht]]. rewrite Ht.
  repeat split; reflexivity.
Qed.

(** ** The final answer *)

(** C2: a [final] event replaces the final answer by its content, or by
    nothing when the content is absent (or empty); after
    [final_stream("a")], [final_stream("b")], [final("c")] the final answer
    is ["c"] and renders as ["c"], whatever the state the three events found,
    and the whole text of a display that saw nothing else is ["c"]. *)
Theorem final_replaces_answer (self : AgentDisplay) (w : World) :
  (forall e, is_final e = true ->
     final_response_parts (display (update e self w))
     = if truthy (content e) then [py_str (content e)] else [])
  /\ (let s := display
                 (updates [ev_final_stream (PStr (lit "a"));
                           ev_final_stream (PStr (lit "b"));
                           ev_final (PStr (lit "c"))] self w) in
      final_response_parts s = [lit "c"]
      /\ _sanitize_html (PStr (join (final_response_parts s))) = lit "c")
  /\ _build_text
       (display
          (updates [ev_final_stream (PStr (lit "a"));
                    ev_final_stream (PStr (lit "b"));
                    ev_final (PStr (lit "c"))] __init__ w))
     = lit "c".
Proof.
  split; [|split].
  - intros e He.
    destruct (update_fields e self w) as [_ [Hf _]]. rewrite Hf.
    rewrite (apply_event_final e self He). reflexivity.
  - cbv zeta.
    destruct (updates_fields
                [ev_final_stream (PStr (lit "a"));
                 ev_final_stream (PStr (lit "b"));
                 ev_final (PStr (lit "c"))] self w) as [_ [Hf _]].
    rewrite Hf.
    change [ev_final_stream (PStr (lit "a")); ev_final_stream (PStr (lit "b"));
            ev_final (PStr (lit "c"))]
      with ([ev_final_stream (PStr (lit "a"));
             ev_final_stream (PStr (lit "b"))]
            ++ [ev_final (PStr (lit "c"))]).
    rewrite apply_events_snoc.
    rewrite apply_event_final by reflexivity.
    split; reflexivity.
  - destruct (updates_fields
                [ev_final_stream (PStr (lit "a"));
                 ev_final_stream (PStr (lit "b"));
                 ev_final (PStr (lit "c"))] __init__ w) as [_ [_ [_ Hb]]].
    rewrite Hb. reflexivity.
Qed.

Lemma final_replaces_answer_witness :
  final_response_parts
    (display (update (ev_final (PStr (lit "c")))
                (set_final_response_parts [lit "a"; lit "b"] __init__)
                (world_of [100%Q; 101%Q] 200%Q [])))
  = [lit "c"].
Proof.
  apply (proj1 (final_replaces_answer
                  (set_final_response_parts [lit "a"; lit "b"] __init__)
                  (world_of [100%Q; 101%Q] 200%Q []))
           (ev_final (PStr (lit "c")))).
  reflexivity.
Defined.

(** ** The throttle *)

(** A dirty event inside the throttle window makes no edit call. *)
Lemma update_throttled e self w :
  dirty e = true ->
  (clock w (reads w) - last_render_time self < render_interval self)%Q ->
  update e self w = (Returns tt, fst (apply_event e self), tick w).
Proof.
  intros Hd Hlt. rewrite update_unfold, apply_event_dirty, Hd.
  rewrite try_render_unfold.
  destruct (apply_event_time e self) as [Ht Hi]. rewrite Ht, Hi.
  apply Qlt_bool_iff in Hlt. rewrite Hlt. reflexivity.
Qed.

(** A dirty event outside the throttle window makes one edit call, on the
    text of the state it leaves. *)
Lemma update_eligible e self w :
  dirty e = true ->
  (render_interval self <= clock w (reads w) - last_render_time self)%Q ->
  let s1 := fst (apply_event e self) in
  update e self w
  = match sink w (length (edits w)) (_build_text s1) with
    | None => (Returns tt, set_last_render_time (clock w (S (reads w))) s1,
               tick (sent (_build_text s1) (tick w)))
    | Some _ => (Returns tt, s1, sent (_build_text s1) (tick w))
    end.
Proof.
  intros Hd Hle s1. rewrite update_unfold, apply_event_dirty, Hd.
  rewrite try_render_unfold.
  destruct (apply_event_time e self) as [Ht Hi]. fold s1 in Ht, Hi |- *.
  rewrite Ht, Hi.
  apply Qlt_bool_false_iff in Hle. rewrite Hle. reflexivity.
Qed.

(** C5: a [final] event gets no way round the throttle: processed less than
    [render_interval] after the time of the last successful render, it makes
    no edit call. *)
Theorem final_is_throttled (e : Event) (self : AgentDisplay) (w : World) :
  is_final e = true ->
  (clock w (reads w) - last_render_time self < render_interval self)%Q ->
  edits (world (update e self w)) = edits w
  /\ outcome (update e self w) = Returns tt.
Proof.
  intros He Hlt.
  assert (Hd : dirty e = true).
  { rewrite <- (apply_event_dirty e self), (apply_event_final e self He).
    reflexivity. }
  rewrite (update_throttled e self w Hd Hlt). split; reflexivity.
Qed.

Lemma final_is_throttled_witness :
  let self := set_last_render_time 100%Q __init__ in
  let w := world_of [(1003 # 10)%Q] 200%Q [] in
  edits (world (update (ev_final (PStr (lit "done"))) self w)) = [].
Proof.
  intros self w.
  apply (final_is_throttled (ev_final (PStr (lit "done"))) self w).
  - reflexivity.
  - reflexivity.
Defined.

(** ** Failures of the sink *)

(** C9: when the edit call of a render attempt raises, [update] returns
    normally, the edit has been called once and not again, and the state is
    the one the event left. *)
Theorem sink_failure_is_swallowed
    (e : Event) (self : AgentDisplay) (w : World) (ex : exn) :
  let s1 := fst (apply_event e self) in
  dirty e = true ->
  (render_interval self <= clock w (reads w) - last_render_time self)%Q ->
  sink w (length (edits w)) (_build_text s1) = Some ex ->
  outcome (update e self w) = Returns tt
  /\ edits (world (update e self w)) = edits w ++ [_build_text s1]
  /\ display (update e self w) = s1.
Proof.
  intros s1 Hd Hle Hsink.
  pose proof (update_eligible e self w Hd Hle) as H. cbv zeta in H.
  fold s1 in H. rewrite Hsink in H. rewrite H. repeat split.
Qed.

Lemma sink_failure_is_swallowed_witness :
  let e := ev_thinking (lit "hm") in
  let w := world_of [100%Q] 200%Q [Some (Exception (lit "Flood control"))] in
  outcome (update e __init__ w) = Returns tt
  /\ length (edits (world (update e __init__ w))) = 1.
Proof.
  intros e w.
  destruct (sink_failure_is_swallowed e __init__ w
              (Exception (lit "Flood control")))
    as [Ho [He _]].
  - reflexivity.
  - vm_compute. discriminate.
  - reflexivity.
  - split; [exact Ho|]. rewrite He. reflexivity.
Defined.

(** C10: a render attempt whose edit call raises leaves the object as it
    was, the render time included; having been outside the throttle window
    it has made its one edit call, and the next dirty event, at any clock
    reading not earlier, makes an edit call again. *)
Theorem failed_render_keeps_state
    (force : bool) (self : AgentDisplay) (w : World) (ex : exn) :
  sink w (length (edits w)) (_build_text self) = Some ex ->
  display (_try_render force self w) = self
  /\ ((render_interval self <= clock w (reads w) - last_render_time self)%Q ->
      let w1 := world (_try_render force self w) in
      edits w1 = edits w ++ [_build_text self]
      /\ forall e,
           dirty e = true ->
           (clock w (reads w) <= clock w1 (reads w1))%Q ->
           edits (world (update e self w1))
           = edits w1 ++ [_build_text (fst (apply_event e self))]).
Proof.
  intros Hsink. rewrite try_render_unfold, Hsink.
  split.
  - destruct (negb force && _); reflexivity.
  - intros Hle.
    pose proof (proj2 (Qlt_bool_false_iff _ _) Hle) as Hb. rewrite Hb.
    rewrite andb_false_r. cbv zeta. cbn [world snd]. split; [reflexivity|].
    intros e Hd Hmono.
    assert (Hle' : (render_interval self
                    <= clock (sent (_build_text self) (tick w))
                         (reads (sent (_build_text self) (tick w)))
                       - last_render_time self)%Q) by lra.
    pose proof (update_eligible e self _ Hd Hle') as H. cbv zeta in H.
    rewrite H.
    match goal with
    | |- context [match ?x with Some _ => _ | None => _ end] => destruct x
    end; reflexivity.
Qed.

Lemma failed_render_keeps_state_witness :
  let self := set_current_thinking_buffer [lit "hm"] __init__ in
  let w := world_of [100%Q; 101%Q] 200%Q
             [Some (Exception (lit "Message is not modified"))] in
  display (_try_render false self w) = self
  /\ length (edits (world (update (ev_thinking (lit "ok")) self
                             (world (_try_render false self w))))) = 2.
Proof.
  intros self w.
  destruct (failed_render_keeps_state false self w
              (Exception (lit "Message is not modified")) eq_refl)
    as [Hs Hnext].
  split; [exact Hs|].
  destruct Hnext as [He Hn].
  - vm_compute. discriminate.
  - rewrite (Hn (ev_thinking (lit "ok")) eq_refl).
    + rewrite He. reflexivity.
    + vm_compute. discriminate.
Defined.

(** X15: The render time moves only with an edit call that succeeded, and then
    to the clock reading taken after it. *)
Lemma render_time_advances_on_success force self w :
  last_render_time (display (_try_render force self w))
  <> last_render_time self ->
  sink w (length (edits w)) (_build_text self) = None
  /\ last_render_time (display (_try_render force self w))
     = clock w (S (reads w)).
Proof.
  rewrite try_render_unfold.
  destruct (negb force && _); [intros H; now elim H|].
  destruct (sink w _ _); [intros H; now elim H|].
  intros _. split; reflexivity.
Qed.

(** ** The thinking buffer *)

Lemma flush_thinking_buffer self :
  current_thinking_buffer (flush_thinking self) = [].
Proof.
  unfold flush_thinking.
  destruct (current_thinking_buffer self) eqn:E; [exact E | reflexivity].
Qed.

Lemma flush_thinking_logs self :
  current_thinking_buffer self <> [] ->
  logs (flush_thinking self)
  = logs self ++ [(thinking, PStr (join (current_thinking_buffer self)))].
Proof.
  unfold flush_thinking.
  destruct (current_thinking_buffer self); [congruence | reflexivity].
Qed.

(** What a flushing event does after the flush: it appends no further
    thought, and it leaves the buffer empty. *)
Lemma apply_event_flush e self :
  is_flush e = true ->
  current_thinking_buffer (fst (apply_event e self)) = []
  /\ exists rest,
       logs (fst (apply_event e self)) = logs (flush_thinking self) ++ rest
       /\ Forall (fun entry => fst entry <> thinking) rest.
Proof.
  unfold is_flush. intros H.
  apply orb_true_iff in H as [H | H]; [apply orb_true_iff in H as [H | H]|].
  - rewrite (apply_event_tool_use e self H).
    split; [apply flush_thinking_buffer|].
    eexists. split; [reflexivity|].
    constructor; [discriminate | constructor].
  - rewrite (apply_event_final_stream e self H).
    destruct (truthy (content e));
      (split; [apply flush_thinking_buffer|]);
      exists []; rewrite app_nil_r; split; (reflexivity || constructor).
  - rewrite (apply_event_final e self H).
    split; [apply flush_thinking_buffer|].
    exists []; rewrite app_nil_r; split; (reflexivity || constructor).
Qed.

Lemma join_app a b : join (a ++ b) = join a ++ join b.
Proof. apply concat_app. Qed.

(** Thinking events append their fragments, in the order of arrival; an
    empty fragment appends nothing. *)
Lemma apply_events_thinking (fs : list str) self :
  exists buf,
    apply_events (map ev_thinking fs) self
    = set_current_thinking_buffer buf self
    /\ join buf = join (current_thinking_buffer self ++ fs)
    /\ (current_thinking_buffer self <> [] -> buf <> []).
Proof.
  revert self. induction fs as [|f fs IH]; intros self.
  - exists (current_thinking_buffer self). rewrite app_nil_r.
    split; [destruct self; reflexivity|]. split; [reflexivity | auto].
  - cbn [map]. rewrite apply_events_cons.
    rewrite (apply_event_thinking (ev_thinking f) self eq_refl).
    cbn [ev_thinking content].
    destruct f as [|c f].
    + cbn [truthy fst]. destruct (IH self) as [buf [Hb [Hj Hn]]].
      exists buf. split; [exact Hb|]. split; [|exact Hn].
      rewrite Hj, !join_app. reflexivity.
    + cbn [truthy fst py_str].
      destruct (IH (set_current_thinking_buffer
                      (current_thinking_buffer self ++ [c :: f]) self))
        as [buf [Hb [Hj Hn]]].
      exists buf. split; [exact Hb|]. split.
      * rewrite Hj. cbn [set_current_thinking_buffer current_thinking_buffer].
        rewrite <- app_assoc. reflexivity.
      * intros _. apply Hn.
        cbn [set_current_thinking_buffer current_thinking_buffer].
        destruct (current_thinking_buffer self); discriminate.
Qed.

(** C1: on a state whose thinking buffer is not empty, a [tool_use],
    [final_stream] or [final] event (here after any further thinking
    fragments [fs]) appends one thought entry, whose text is the buffered
    fragments and [fs] joined in their order of arrival, appends no other
    thought entry, and leaves the buffer empty. *)
Theorem flush_moves_pending_thought
    (self : AgentDisplay) (w : World) (fs : list str) (e : Event) :
  current_thinking_buffer self <> [] ->
  is_flush e = true ->
  let s' := display (updates (map ev_thinking fs ++ [e]) self w) in
  current_thinking_buffer s' = []
  /\ exists rest,
       logs s'
       = logs self
         ++ (thinking, PStr (join (current_thinking_buffer self ++ fs)))
         :: rest
       /\ Forall (fun entry => fst entry <> thinking) rest.
Proof.
  intros Hne He s'. subst s'.
  destruct (updates_fields (map ev_thinking fs ++ [e]) self w)
    as [Hl [_ [Hb _]]].
  rewrite Hl, Hb, apply_events_snoc.
  destruct (apply_events_thinking fs self) as [buf [Hs [Hj Hn]]].
  rewrite Hs.
  destruct (apply_event_flush e (set_current_thinking_buffer buf self) He)
    as [Hempty [rest [Hlogs Hrest]]].
  split; [exact Hempty|].
  exists rest. split; [|exact Hrest].
  rewrite Hlogs, flush_thinking_logs by (exact (Hn Hne)).
  cbn [set_current_thinking_buffer logs current_thinking_buffer].
  rewrite Hj, <- app_assoc. reflexivity.
Qed.

Lemma flush_moves_pending_thought_witness :
  let self := set_current_thinking_buffer [lit "ab"; lit "cd"] __init__ in
  let w := world_of [100%Q; 101%Q; 102%Q; 103%Q] 200%Q [] in
  let s' := display
              (updates (map ev_thinking [lit "ef"]
                        ++ [ev_tool_use (PStr (lit "ls")) (PStr (lit "{}"))])
                 self w) in
  current_thinking_buffer s' = []
  /\ exists rest,
       logs s' = (thinking, PStr (lit "abcdef")) :: rest
       /\ Forall (fun entry => fst entry <> thinking) rest.
Proof.
  intros self w.
  apply (flush_moves_pending_thought self w [lit "ef"]
           (ev_tool_use (PStr (lit "ls")) (PStr (lit "{}")))).
  - discriminate.
  - reflexivity.
Defined.

Lemma pending_thought_origin es self :
  current_thinking_buffer self = [] ->
  current_thinking_buffer (apply_events es self) <> [] ->
  exists pre e post,
    es = pre ++ e :: post
    /\ is_thinking e = true
    /\ truthy (content e) = true
    /\ Forall (fun x => is_flush x = false) post.
Proof.
  intros Hself. induction es as [|x es IH] using rev_ind.
  - intros H. elim H. exact Hself.
  - rewrite apply_events_snoc. intros H.
    assert (Hkeep :
              current_thinking_buffer (fst (apply_event x (apply_events es self)))
              = current_thinking_buffer (apply_events es self) ->
              is_flush x = false ->
              exists pre e post,
                es ++ [x] = pre ++ e :: post
                /\ is_thinking e = true
                /\ truthy (content e) = true
                /\ Forall (fun x => is_flush x = false) post).
    { intros Hsame Hnf. rewrite Hsame in H.
      destruct (IH H) as [pre [e [post [Hes [Ht [Hc Hp]]]]]].
      exists pre, e, (post ++ [x]). rewrite Hes, <- app_assoc.
      repeat split; try assumption.
      apply Forall_app. split; [exact Hp | constructor; [exact Hnf | constructor]]. }
    destruct (is_flush x) eqn:Hflush.
    { elim H. apply (apply_event_flush x _ Hflush). }
    destruct (is_thinking x) eqn:Hthink.
    { rewrite (apply_event_thinking x _ Hthink) in H, Hkeep.
      destruct (truthy (content x)) eqn:Hc.
      - exists es, x, []. repeat split; try assumption. constructor.
      - apply Hkeep; reflexivity. }
    destruct (py_eq (status x) (lit "observation")) eqn:Hobs.
    { rewrite (apply_event_observation x _ Hobs) in Hkeep.
      apply Hkeep; reflexivity. }
    rewrite (apply_event_other x _ Hthink Hflush Hobs) in Hkeep.
    apply Hkeep; reflexivity.
Qed.

(** C3, as the code has it: after any sequence of [update] calls on a fresh
    display, the thinking buffer is non-empty only if a thinking event with
    content has been processed and no flushing event ([tool_use],
    [final_stream], [final]) after it; observations and unknown events may
    have followed. It is empty right after any flushing event. *)
Theorem pending_thought_invariant (es : list Event) (w : World) :
  let s := display (updates es __init__ w) in
  (current_thinking_buffer s <> [] ->
   exists pre e post,
     es = pre ++ e :: post
     /\ is_thinking e = true
     /\ truthy (content e) = true
     /\ Forall (fun x => is_flush x = false) post)
  /\ (forall pre e,
        es = pre ++ [e] -> is_flush e = true ->
        current_thinking_buffer s = []).
Proof.
  intros s. subst s.
  destruct (updates_fields es __init__ w) as [_ [_ [Hb _]]]. rewrite Hb.
  split.
  - apply pending_thought_origin. reflexivity.
  - intros pre e Hes He. rewrite Hes, apply_events_snoc.
    apply (apply_event_flush e _ He).
Qed.

Lemma pending_thought_invariant_witness :
  let w := world_of [100%Q; 101%Q; 102%Q; 103%Q] 200%Q [] in
  (exists pre e post,
     [ev_thinking (lit "x"); ev_observation (PStr (lit "r"))]
     = pre ++ e :: post
     /\ is_thinking e = true
     /\ truthy (content e) = true
     /\ Forall (fun x => is_flush x = false) post)
  /\ current_thinking_buffer
       (display (updates [ev_thinking (lit "x"); ev_final PNone] __init__ w))
     = [].
Proof.
  intros w. split.
  - apply (proj1 (pending_thought_invariant
                    [ev_thinking (lit "x"); ev_observation (PStr (lit "r"))]
                    w)).
    vm_compute. discriminate.
  - apply (proj2 (pending_thought_invariant
                    [ev_thinking (lit "x"); ev_final PNone] w)
             [ev_thinking (lit "x")] (ev_final PNone)); reflexivity.
Defined.

(** C3 as worded fails: an observation does not flush, so after a thinking
    event and then an observation the buffer is not empty although the last
    event processed is not a thinking event. *)
Lemma observation_keeps_pending_thought :
  let w := world_of [100%Q; 101%Q; 102%Q; 103%Q] 200%Q [] in
  let last_event := ev_observation (PStr (lit "r")) in
  is_thinking last_event = false
  /\ current_thinking_buffer
       (display (updates [ev_thinking (lit "x"); last_event] __init__ w))
     = [lit "x"]
  /\ [lit "x"] <> ([] : list str).
Proof. cbv zeta. repeat split. discriminate. Qed.

(** ** The length of the message *)

Lemma cap_log_length log_text : length (cap_log log_text) <= 2021.
Proof.
  unfold cap_log, max_log_len.
  destruct (Nat.ltb_spec 2000 (length log_text)) as [H | H].
  - rewrite length_app, slice_last_length by lia.
    change (length omitted_marker) with 21. lia.
  - lia.
Qed.

(** The quoted log takes at most 2048 characters; the final answer is added
    to it at its full escaped length. *)
Lemma build_text_length self :
  length (_sanitize_html (PStr (join (final_response_parts self))))
  <= length (_build_text self)
  /\ length (_build_text self)
     <= 2048
        + length (_sanitize_html (PStr (join (final_response_parts self)))).
Proof.
  rewrite build_text_unfold. cbv zeta.
  pose proof (cap_log_length (log_section self)) as Hcap.
  destruct (cap_log (log_section self)) as [|c l].
  - destruct (_sanitize_html _).
    + change (length (lit "...")) with 3. cbn [length]. lia.
    + lia.
  - unfold quote_block. rewrite !length_app.
    change (length (lit "<blockquote>")) with 12.
    change (length (lit "</blockquote>")) with 13.
    change (length nl) with 1. lia.
Qed.

(** C8 fails on the code: a final answer of 4097 characters is passed to
    the sink in a text of 4097 characters, beyond the 4096 the destination
    accepts. *)
Theorem build_text_exceeds_limit :
  let answer := repeat 97%N 4097 in
  let w := world_of [100%Q; 101%Q] 200%Q [] in
  let r := update (ev_final (PStr answer)) __init__ w in
  length (_build_text (display r)) = 4097
  /\ map (@length char) (edits (world r)) = [4097].
Proof. vm_compute. split; reflexivity. Qed.

(** ** Bursts *)




(** * Further properties of the class *)

(** ** Escaping *)

Lemma replace_cons old new (c : char) (t : str) :
  replace old new (c :: t)
  = (if N.eqb c old then new else [c]) ++ replace old new t.
Proof. reflexivity. Qed.

Lemma sanitize_cons (c : char) (t : str) :
  _sanitize_html (PStr (c :: t))
  = escape_char c ++ _sanitize_html (PStr t).
Proof.
  rewrite (sanitize_app [c] t : _sanitize_html (PStr (c :: t)) = _).
  f_equal. rewrite sanitize_PStr. unfold escape_char.
  rewrite replace_cons. cbn [replace flat_map]. rewrite app_nil_r.
  destruct (N.eqb c amp) eqn:Ea; [reflexivity|].
  rewrite replace_cons. cbn [replace flat_map]. rewrite app_nil_r.
  destruct (N.eqb c lt) eqn:El; [reflexivity|].
  rewrite replace_cons. cbn [replace flat_map]. rewrite app_nil_r.
  destruct (N.eqb c gt) eqn:Eg; reflexivity.
Qed.

(** X1: The three replacements in a row act as one simultaneous substitution,
    character by character: replacing [&] first keeps the [&] of the
    entities written afterwards from being escaped again. *)
Theorem sanitize_is_simultaneous (t : str) :
  _sanitize_html (PStr t) = flat_map escape_char t.
Proof.
  induction t as [|c t IH]; [reflexivity|].
  rewrite sanitize_cons, IH. reflexivity.
Qed.

Lemma escape_char_no_markup (c : char) :
  Forall (fun x => x <> lt /\ x <> gt) (escape_char c).
Proof.
  unfold escape_char.
  destruct (N.eqb c amp) eqn:Ea;
    [repeat constructor; discriminate|].
  destruct (N.eqb c lt) eqn:El;
    [repeat constructor; discriminate|].
  destruct (N.eqb c gt) eqn:Eg;
    [repeat constructor; discriminate|].
  apply N.eqb_neq in El, Eg. repeat constructor; assumption.
Qed.

(** X2: Whatever value is sanitized, the result has no [<] and no [>]. *)
Theorem sanitize_has_no_markup (v : pyval) :
  Forall (fun x => x <> lt /\ x <> gt) (_sanitize_html v).
Proof.
  destruct v as [|t]; [constructor|].
  induction t as [|c t IH]; [constructor|].
  rewrite sanitize_cons. apply Forall_app. split; [|exact IH].
  apply escape_char_no_markup.
Qed.

Lemma escape_char_length (c : char) :
  1 <= length (escape_char c) <= 5.
Proof.
  unfold escape_char.
  destruct (N.eqb c amp); [cbn; lia|].
  destruct (N.eqb c lt); [cbn; lia|].
  destruct (N.eqb c gt); cbn; lia.
Qed.

Lemma sanitize_length_bounds (t : str) :
  length t <= length (_sanitize_html (PStr t)) <= 5 * length t.
Proof.
  induction t as [|c t IH]; [cbn; lia|].
  rewrite sanitize_cons, length_app. cbn [length].
  pose proof (escape_char_length c). lia.
Qed.

(** X3: Escaping never shortens a text and makes it at most five times as
    long; both bounds are met, by a text without markup characters and by a
    text of [&] alone. *)
Theorem sanitize_length (t : str) :
  length t <= length (_sanitize_html (PStr t)) <= 5 * length t
  /\ length (_sanitize_html (PStr (repeat 97%N (length t)))) = length t
  /\ length (_sanitize_html (PStr (repeat amp (length t)))) = 5 * length t.
Proof.
  split; [apply sanitize_length_bounds|].
  induction (length t) as [|n [IHa IHb]]; [split; reflexivity|].
  cbn [repeat]. rewrite !sanitize_cons, !length_app, IHa, IHb.
  split; cbn; lia.
Qed.

Lemma escape_char_cases (c : char) :
  (c = amp /\ escape_char c = lit "&amp;")
  \/ (c = lt /\ escape_char c = lit "&lt;")
  \/ (c = gt /\ escape_char c = lit "&gt;")
  \/ (c <> amp /\ c <> lt /\ c <> gt /\ escape_char c = [c]).
Proof.
  unfold escape_char.
  destruct (N.eqb c amp) eqn:Ea; [apply N.eqb_eq in Ea; auto|].
  destruct (N.eqb c lt) eqn:El; [apply N.eqb_eq in El; auto|].
  destruct (N.eqb c gt) eqn:Eg; [apply N.eqb_eq in Eg; auto 6|].
  apply N.eqb_neq in Ea, El, Eg. auto 8.
Qed.

Lemma escape_char_prefix_free (x y : char) (ra rb : str) :
  escape_char x ++ ra = escape_char y ++ rb -> x = y /\ ra = rb.
Proof.
  intros H.
  destruct (escape_char_cases x)
    as [[Hx Ex]|[[Hx Ex]|[[Hx Ex]|[Hxa [Hxl [Hxg Ex]]]]]];
  destruct (escape_char_cases y)
    as [[Hy Ey]|[[Hy Ey]|[[Hy Ey]|[Hya [Hyl [Hyg Ey]]]]]];
  rewrite Ex, Ey in H; cbn in H; unfold amp, lt, gt in *; subst;
  inversion H; subst; first [split; reflexivity | congruence].
Qed.

(** X4: Escaping loses nothing: two texts with the same escaped form are the
    same text. *)
Theorem sanitize_injective (a b : str) :
  _sanitize_html (PStr a) = _sanitize_html (PStr b) -> a = b.
Proof.
  revert b. induction a as [|x a IH]; intros [|y b] H.
  - reflexivity.
  - rewrite sanitize_cons in H. exfalso.
    pose proof (escape_char_length y) as Hl.
    apply (f_equal (@length char)) in H. rewrite length_app in H.
    cbn [length _sanitize_html truthy negb] in H. lia.
  - rewrite sanitize_cons in H. exfalso.
    pose proof (escape_char_length x) as Hl.
    apply (f_equal (@length char)) in H. rewrite length_app in H.
    cbn [length _sanitize_html truthy negb] in H. lia.
  - rewrite !sanitize_cons in H.
    apply escape_char_prefix_free in H as [Hxy Hab].
    rewrite Hxy, (IH b Hab). reflexivity.
Qed.

Lemma sanitize_injective_witness :
  _sanitize_html (PStr (lit "a<b")) = _sanitize_html (PStr (lit "a<b"))
  /\ lit "a<b" = lit "a<b".
Proof.
  split; [reflexivity|].
  apply (sanitize_injective (lit "a<b") (lit "a<b")). reflexivity.
Defined.

(** ** The assembled text *)

Lemma render_entry_acc (acc : str) (entry : log_entry) :
  render_entry acc entry = acc ++ render_entry [] entry.
Proof. destruct entry as [[| |] content]; reflexivity. Qed.

Lemma fold_render_entry (l : list log_entry) (acc : str) :
  fold_left render_entry l acc = acc ++ concat (map (render_entry []) l).
Proof.
  revert acc. induction l as [|entry l IH]; intros acc.
  - cbn. rewrite app_nil_r. reflexivity.
  - cbn [fold_left map concat]. rewrite IH, (render_entry_acc acc entry).
    rewrite <- app_assoc. reflexivity.
Qed.

(** X5: The log section is the lines of the log entries, one after the other in
    the order of the log, followed by the line of the live thinking text
    when there is one. *)
Theorem log_section_in_order (self : AgentDisplay) :
  log_section self
  = concat (map (render_entry []) (logs self))
    ++ match join (current_thinking_buffer self) with
       | [] => []
       | _ :: _ =>
           thinking_head
           ++ _sanitize_html (PStr (join (current_thinking_buffer self)))
           ++ nl
       end.
Proof.
  unfold log_section. cbv zeta. rewrite fold_render_entry. cbn [app].
  destruct (join (current_thinking_buffer self)); cbn [truthy].
  - rewrite app_nil_r. reflexivity.
  - reflexivity.
Qed.

(** X6: The text is never empty, which the destination would reject; with no
    log entry, no live thinking text and no final answer it is the
    placeholder. *)
Theorem build_text_never_empty (self : AgentDisplay) :
  _build_text self <> []
  /\ (logs self = [] ->
      join (current_thinking_buffer self) = [] ->
      join (final_response_parts self) = [] ->
      _build_text self = lit "...").
Proof.
  split.
  - rewrite build_text_unfold. cbv zeta.
    destruct (cap_log (log_section self)).
    + destruct (_sanitize_html _); discriminate.
    + discriminate.
  - intros Hl Hb Hf. unfold _build_text, log_section. cbv zeta.
    rewrite Hl, Hb, Hf. reflexivity.
Qed.

Lemma build_text_never_empty_witness :
  _build_text (set_logs [] __init__) = lit "...".
Proof.
  apply (proj2 (build_text_never_empty (set_logs [] __init__)));
    reflexivity.
Defined.

(** X7: Once the log section is over its cap, the text has exactly 2048
    characters more than the escaped final answer: the quote block is full,
    and the final answer is added at its whole length. *)
Theorem capped_message_length (self : AgentDisplay) :
  2000 < length (log_section self) ->
  length (_build_text self)
  = 2048 + length (_sanitize_html (PStr (join (final_response_parts self)))).
Proof.
  intros H. rewrite build_text_unfold. cbv zeta.
  assert (Hcap : cap_log (log_section self)
                 = omitted_marker ++ slice_last 2000 (log_section self)).
  { unfold cap_log, max_log_len.
    destruct (Nat.ltb_spec 2000 (length (log_section self)));
      [reflexivity | lia]. }
  rewrite Hcap.
  change (omitted_marker ++ slice_last 2000 (log_section self))
    with (46%N :: tl omitted_marker ++ slice_last 2000 (log_section self)).
  cbv iota. unfold quote_block.
  rewrite !length_app. cbn [length]. rewrite length_app.
  rewrite slice_last_length by lia.
  change (length (lit "<blockquote>")) with 12.
  change (length (lit "</blockquote>")) with 13.
  change (length (tl omitted_marker)) with 20.
  change (length nl) with 1. lia.
Qed.

Lemma capped_message_length_witness :
  length (_build_text
            (set_current_thinking_buffer [repeat 97%N 2500] __init__))
  = 2048.
Proof.
  rewrite (capped_message_length
             (set_current_thinking_buffer [repeat 97%N 2500] __init__)).
  - reflexivity.
  - apply Nat.ltb_lt. vm_compute. reflexivity.
Defined.

(** X8: A final answer whose escaped text has at most 2048 characters gives a
    text within the 4096 characters of the destination, whatever the log. *)
Theorem short_answer_fits (self : AgentDisplay) :
  length (_sanitize_html (PStr (join (final_response_parts self)))) <= 2048 ->
  length (_build_text self) <= 4096.
Proof.
  intros H. pose proof (build_text_length self) as [_ Hb]. lia.
Qed.

Lemma short_answer_fits_witness :
  length (_build_text
            (set_final_response_parts [repeat 97%N 2048]
               (set_current_thinking_buffer [repeat 97%N 2500] __init__)))
  <= 4096.
Proof.
  apply short_answer_fits. apply Nat.leb_le. vm_compute. reflexivity.
Defined.

Lemma sanitize_ellipsis : _sanitize_html (PStr ellipsis) = ellipsis.
Proof. reflexivity. Qed.

(** X9: A tool result takes at most 203 characters after the cut, whatever its
    length, and its line in the log at most 1024 after escaping; an absent
    result is shown as [None]. *)
Theorem tool_result_line_bounded (content : pyval) (log_text : str) :
  length (truncate_result content) <= 203
  /\ length (render_entry log_text (tool_result, content))
     <= length log_text + 1024
  /\ render_entry log_text (tool_result, PNone)
     = log_text ++ result_head ++ lit "None" ++ nl ++ nl.
Proof.
  assert (Hcut : length (firstn 200 (py_str content)) <= 200).
  { rewrite length_firstn. lia. }
  split; [|split].
  - unfold truncate_result. rewrite length_app.
    destruct (200 <? length (py_str content));
      [change (length ellipsis) with 3 | cbn [length]]; lia.
  - unfold render_entry, truncate_result.
    rewrite sanitize_app, !length_app.
    pose proof (sanitize_length_bounds (firstn 200 (py_str content)))
      as [_ Hs].
    change (length result_head) with 19. change (length nl) with 1.
    destruct (200 <? length (py_str content)).
    + rewrite sanitize_ellipsis. change (length ellipsis) with 3. lia.
    + cbn [_sanitize_html truthy negb length]. lia.
  - reflexivity.
Qed.

(** ** Events that change nothing, or nothing visible *)

(** X10: An event whose status is none of the five known ones (or is absent)
    changes nothing: no field, no clock reading, no edit call, no error. *)
Theorem unknown_status_is_noop (e : Event) (self : AgentDisplay) (w : World) :
  is_thinking e = false ->
  is_flush e = false ->
  py_eq (status e) (lit "observation") = false ->
  update e self w = (Returns tt, self, w).
Proof.
  intros Ht Hf Ho. rewrite update_unfold.
  rewrite (apply_event_other e self Ht Hf Ho). reflexivity.
Qed.

Lemma unknown_status_is_noop_witness :
  let e := mkEvent (PStr (lit "heartbeat")) (PStr (lit "x")) PNone PNone PNone in
  let self := set_current_thinking_buffer [lit "hm"] __init__ in
  let w := world_of [100%Q] 200%Q [] in
  update e self w = (Returns tt, self, w)
  /\ update (mkEvent PNone PNone PNone PNone PNone) self w
     = (Returns tt, self, w).
Proof.
  intros e self w. split; apply unknown_status_is_noop; reflexivity.
Defined.

(** X11: A thinking event whose content is absent or empty changes nothing and
    attempts no render. *)
Theorem empty_thinking_is_noop (e : Event) (self : AgentDisplay) (w : World) :
  is_thinking e = true ->
  truthy (content e) = false ->
  update e self w = (Returns tt, self, w).
Proof.
  intros Ht Hc. rewrite update_unfold.
  rewrite (apply_event_thinking e self Ht), Hc. reflexivity.
Qed.

Lemma empty_thinking_is_noop_witness :
  let self := set_current_thinking_buffer [lit "hm"] __init__ in
  let w := world_of [100%Q] 200%Q [] in
  update (ev_thinking []) self w = (Returns tt, self, w).
Proof.
  intros self w. apply empty_thinking_is_noop; reflexivity.
Defined.

(** X12: A [final_stream] event whose content is absent or empty still flushes
    the thinking buffer into the log, but attempts no render: the new
    thought entry is not shown before a later event renders. *)
Theorem empty_final_stream_flushes_unseen
    (e : Event) (self : AgentDisplay) (w : World) :
  py_eq (status e) (lit "final_stream") = true ->
  truthy (content e) = false ->
  update e self w = (Returns tt, flush_thinking self, w).
Proof.
  intros Hs Hc. rewrite update_unfold.
  rewrite (apply_event_final_stream e self Hs), Hc. reflexivity.
Qed.

Lemma empty_final_stream_flushes_unseen_witness :
  let self := set_current_thinking_buffer [lit "hm"] __init__ in
  let w := world_of [100%Q] 200%Q [] in
  logs (display (update (ev_final_stream PNone) self w))
  = [(thinking, PStr (lit "hm"))]
  /\ edits (world (update (ev_final_stream PNone) self w)) = [].
Proof.
  intros self w.
  rewrite (empty_final_stream_flushes_unseen (ev_final_stream PNone) self w
             eq_refl eq_refl).
  split; reflexivity.
Defined.

(** ** What [update] does to the sink and the clock *)

(** X13: [update] makes an edit call exactly when the event is dirty and the
    throttle window has elapsed, and then one call, on the text of the
    state the event leaves; it never raises and reads the clock at most
    twice. *)
Theorem update_edits_exactly (e : Event) (self : AgentDisplay) (w : World) :
  let s1 := fst (apply_event e self) in
  let r := update e self w in
  outcome r = Returns tt
  /\ edits (world r)
     = (if dirty e
           && negb (Qlt_bool (clock w (reads w) - last_render_time self)
                      (render_interval self))
        then edits w ++ [_build_text s1]
        else edits w)
  /\ reads w <= reads (world r) <= 2 + reads w.
Proof.
  intros s1 r. subst r. rewrite update_unfold, apply_event_dirty.
  destruct (dirty e); [|cbn; repeat split; lia].
  rewrite try_render_unfold.
  destruct (apply_event_time e self) as [Ht Hi]. fold s1 in Ht, Hi |- *.
  rewrite Ht, Hi. cbn [negb andb].
  destruct (Qlt_bool _ _); [cbn; repeat split; lia|].
  destruct (sink w _ _); cbn; repeat split; lia.
Qed.

(** X14: A forced render makes its edit call whatever the throttle window, on
    the text of the current state, and returns normally whether the call
    succeeds or raises. *)
Theorem forced_render_always_edits (self : AgentDisplay) (w : World) :
  let r := _try_render true self w in
  outcome r = Returns tt
  /\ edits (world r) = edits w ++ [_build_text self].
Proof.
  cbv zeta. rewrite try_render_unfold. cbn [negb andb].
  destruct (sink w _ _); split; reflexivity.
Qed.

Lemma render_time_advances_on_success_witness :
  let self := set_current_thinking_buffer [lit "hm"] __init__ in
  let w := world_of [100%Q; (1003 # 10)%Q] 200%Q [] in
  last_render_time (display (_try_render false self w)) = (1003 # 10)%Q.
Proof.
  intros self w.
  apply (render_time_advances_on_success false self w).
  vm_compute. discriminate.
Defined.

(** ** Invariants over sequences of events *)

Lemma flush_thinking_logs_grow self :
  exists added,
    logs (flush_thinking self) = logs self ++ added /\ length added <= 1.
Proof.
  unfold flush_thinking. destruct (current_thinking_buffer self).
  - exists []. rewrite app_nil_r. split; [reflexivity | cbn; lia].
  - eexists. split; [reflexivity | cbn; lia].
Qed.

Lemma apply_event_logs_grow e self :
  exists added,
    logs (fst (apply_event e self)) = logs self ++ added
    /\ length added <= 2.
Proof.
  destruct (flush_thinking_logs_grow self) as [fl [Hfl Hlen]].
  destruct (is_thinking e) eqn:Ht.
  { rewrite (apply_event_thinking e self Ht).
    exists []. rewrite app_nil_r.
    destruct (truthy (content e)); split; (reflexivity || cbn; lia). }
  destruct (py_eq (status e) (lit "tool_use")) eqn:Htool.
  { rewrite (apply_event_tool_use e self Htool). cbn [fst set_logs logs].
    rewrite Hfl, <- app_assoc. eexists. split; [reflexivity|].
    rewrite length_app. cbn [length]. lia. }
  destruct (py_eq (status e) (lit "observation")) eqn:Hobs.
  { rewrite (apply_event_observation e self Hobs). cbn [fst set_logs logs].
    eexists. split; [reflexivity | cbn; lia]. }
  destruct (py_eq (status e) (lit "final_stream")) eqn:Hfs.
  { rewrite (apply_event_final_stream e self Hfs).
    exists fl. destruct (truthy (content e));
      cbn [fst set_final_response_parts logs]; split; (exact Hfl || lia). }
  destruct (is_final e) eqn:Hfin.
  { rewrite (apply_event_final e self Hfin).
    exists fl. cbn [fst set_final_response_parts logs].
    split; (exact Hfl || lia). }
  rewrite (apply_event_other e self Ht); [| |exact Hobs].
  - exists []. rewrite app_nil_r. split; [reflexivity | cbn; lia].
  - unfold is_flush. unfold is_final in Hfin. rewrite Htool, Hfs, Hfin.
    reflexivity.
Qed.

(** X16: The log only grows: whatever the events and the world, the log after
    them is the log before with entries added at its end, at most two for
    each event. *)
Theorem logs_only_grow (es : list Event) (self : AgentDisplay) (w : World) :
  exists added,
    logs (display (updates es self w)) = logs self ++ added
    /\ length added <= 2 * length es.
Proof.
  destruct (updates_fields es self w) as [Hl _]. rewrite Hl. clear Hl.
  revert self. induction es as [|e es IH]; intros self.
  - exists []. rewrite app_nil_r. split; [reflexivity | cbn; lia].
  - rewrite apply_events_cons.
    destruct (apply_event_logs_grow e self) as [a1 [H1 L1]].
    destruct (IH (fst (apply_event e self))) as [a2 [H2 L2]].
    exists (a1 ++ a2). rewrite H2, H1, <- app_assoc.
    split; [reflexivity|]. rewrite length_app. cbn [length]. lia.
Qed.

Lemma join_nonempty (b : list str) :
  Forall (fun f => f <> []) b -> b <> [] -> join b <> [].
Proof.
  intros Hall Hne. destruct b as [|f b]; [congruence|].
  inversion Hall as [|? ? Hf _]; subst.
  destruct f; [congruence | discriminate].
Qed.

Lemma truthy_py_str v : truthy v = true -> py_str v <> [].
Proof. destruct v as [|[|c t]]; discriminate. Qed.

Lemma flush_thinking_well_formed self :
  well_formed self -> well_formed (flush_thinking self).
Proof.
  intros [Hb [Hf Hl]]. unfold flush_thinking.
  destruct (current_thinking_buffer self) as [|f b] eqn:E;
    [repeat split; try rewrite E; assumption|].
  repeat split; cbn [set_current_thinking_buffer set_logs logs
                     current_thinking_buffer final_response_parts].
  - constructor.
  - exact Hf.
  - apply Forall_app. split; [exact Hl|].
    constructor; [|constructor]. intros _.
    exists (join (f :: b)). split; [reflexivity|].
    apply join_nonempty; [exact Hb | discriminate].
Qed.

Lemma apply_event_well_formed e self :
  well_formed self -> well_formed (fst (apply_event e self)).
Proof.
  intros Hwf.
  pose proof (flush_thinking_well_formed self Hwf) as [Fb [Ff Fl]].
  destruct Hwf as [Hb [Hf Hl]].
  destruct (is_thinking e) eqn:Ht.
  { rewrite (apply_event_thinking e self Ht).
    destruct (truthy (content e)) eqn:Hc; [|repeat split; assumption].
    repeat split; cbn [fst set_current_thinking_buffer logs
                       current_thinking_buffer final_response_parts];
      try assumption.
    apply Forall_app. split; [exact Hb|].
    constructor; [apply truthy_py_str; exact Hc | constructor]. }
  destruct (py_eq (status e) (lit "tool_use")) eqn:Htool.
  { rewrite (apply_event_tool_use e self Htool).
    repeat split; cbn [fst set_logs logs current_thinking_buffer
                       final_response_parts]; try assumption.
    apply Forall_app. split; [exact Fl|].
    constructor; [discriminate | constructor]. }
  destruct (py_eq (status e) (lit "observation")) eqn:Hobs.
  { rewrite (apply_event_observation e self Hobs).
    repeat split; cbn [fst set_logs logs current_thinking_buffer
                       final_response_parts]; try assumption.
    apply Forall_app. split; [exact Hl|].
    constructor; [discriminate | constructor]. }
  destruct (py_eq (status e) (lit "final_stream")) eqn:Hfs.
  { rewrite (apply_event_final_stream e self Hfs).
    destruct (truthy (content e)) eqn:Hc; [|repeat split; assumption].
    repeat split; cbn [fst set_final_response_parts logs
                       current_thinking_buffer final_response_parts];
      try assumption.
    apply Forall_app. split; [exact Ff|].
    constructor; [apply truthy_py_str; exact Hc | constructor]. }
  destruct (is_final e) eqn:Hfin.
  { rewrite (apply_event_final e self Hfin).
    repeat split; cbn [fst set_final_response_parts logs
                       current_thinking_buffer final_response_parts];
      try assumption.
    destruct (truthy (content e)) eqn:Hc; [|constructor].
    constructor; [apply truthy_py_str; exact Hc | constructor]. }
  rewrite (apply_event_other e self Ht); [repeat split; assumption | |exact Hobs].
  unfold is_flush. unfold is_final in Hfin. rewrite Htool, Hfs, Hfin.
  reflexivity.
Qed.

Lemma apply_events_well_formed es self :
  well_formed self -> well_formed (apply_events es self).
Proof.
  revert self. induction es as [|e es IH]; intros self H; [exact H|].
  rewrite apply_events_cons. apply IH, apply_event_well_formed, H.
Qed.

(** X17: In every state reached from a fresh display, no kept fragment is empty
    and no thought in the log has an empty text; so the buffer is non-empty
    exactly when its joined text is, and the test that flushes (on the
    list) and the test that shows the live line (on the text) agree. *)
Theorem reachable_states_well_formed (es : list Event) (w : World) :
  let s := display (updates es __init__ w) in
  well_formed s
  /\ (current_thinking_buffer s <> [] <->
      join (current_thinking_buffer s) <> []).
Proof.
  intros s.
  assert (Hwf : well_formed s).
  { subst s. destruct (updates_display es __init__ w) as [_ [t Ht]].
    rewrite Ht.
    assert (H0 : well_formed __init__) by (repeat split; constructor).
    pose proof (apply_events_well_formed es __init__ H0) as [Hb [Hf Hl]].
    repeat split; assumption. }
  split; [exact Hwf|]. split.
  - apply join_nonempty, Hwf.
  - intros H E. rewrite E in H. apply H. reflexivity.
Qed.

Lemma reachable_states_well_formed_witness :
  let w := world_of [100%Q; 101%Q; 102%Q] 200%Q [] in
  join (current_thinking_buffer
          (display (updates [ev_thinking []; ev_thinking (lit "hm")]
                      __init__ w))) <> [].
Proof.
  intros w.
  apply (proj2 (reachable_states_well_formed
                  [ev_thinking []; ev_thinking (lit "hm")] w)).
  vm_compute. discriminate.
Defined.

Lemma updates_cons e es self w :
  updates (e :: es) self w
  = updates es (display (update e self w)) (world (update e self w)).
Proof.
  cbn [updates]. unfold bind.
  destruct (update_display e self w) as [Ho _].
  destruct (update e self w) as [[o s'] w'].
  unfold outcome in Ho. cbn [fst] in Ho. rewrite Ho. reflexivity.
Qed.

Lemma update_edits_cases e self w :
  edits (world (update e self w)) = edits w
  \/ edits (world (update e self w))
     = edits w ++ [_build_text (fst (apply_event e self))].
Proof.
  rewrite update_unfold.
  destruct (snd (apply_event e self)); [|left; reflexivity].
  rewrite try_render_unfold.
  destruct (negb false && _); [left; reflexivity|].
  destruct (sink w _ _); right; reflexivity.
Qed.

Lemma update_clean e self w :
  dirty e = false ->
  update e self w = (Returns tt, fst (apply_event e self), w).
Proof.
  intros Hd. rewrite update_unfold, apply_event_dirty, Hd. reflexivity.
Qed.

Lemma updates_snoc es e self w :
  updates (es ++ [e]) self w
  = update e (display (updates es self w)) (world (updates es self w)).
Proof.
  revert self w. induction es as [|e0 es IH]; intros self w.
  - cbn [app]. rewrite updates_cons. cbn [updates ret display world fst snd].
    destruct (update_display e self w) as [Ho _].
    destruct (update e self w) as [[o s'] w'].
    unfold outcome in Ho. cbn [fst] in Ho. rewrite Ho. reflexivity.
  - cbn [app]. rewrite !updates_cons. apply IH.
Qed.

Lemma updates_snoc_edits es e self w :
  edits (world (updates (es ++ [e]) self w))
  = edits (world (updates es self w))
  \/ (dirty e = true
      /\ edits (world (updates (es ++ [e]) self w))
         = edits (world (updates es self w))
           ++ [_build_text (apply_events (es ++ [e]) self)]).
Proof.
  rewrite updates_snoc.
  destruct (updates_display es self w) as [_ [t Ht]].
  destruct (dirty e) eqn:Hd.
  - destruct (update_edits_cases e (display (updates es self w))
                (world (updates es self w))) as [H | H];
      [left; exact H | right].
    split; [reflexivity|]. rewrite H, Ht, apply_event_set_time.
    cbn [fst]. rewrite build_text_set_time, apply_events_snoc. reflexivity.
  - left. rewrite (update_clean e _ _ Hd). reflexivity.
Qed.

Lemma StronglySorted_snoc (ks : list nat) (n : nat) :
  StronglySorted Nat.lt ks -> Forall (fun k => k < n) ks ->
  StronglySorted Nat.lt (ks ++ [n]).
Proof.
  induction 1 as [|k ks Hs IH Hk]; intros Hall.
  - repeat constructor.
  - inversion Hall as [|? ? Hkn Hrest]; subst. cbn [app].
    constructor; [exact (IH Hrest)|].
    apply Forall_app. split; [exact Hk | repeat constructor; exact Hkn].
Qed.

(** X18: Each further event of a sequence either makes no edit call or, only
    when it is dirty, appends exactly one, on the text of the state left
    by all the events so far, that event included. So the texts sent
    during a sequence are the snapshots of strictly increasing prefixes of
    it, in that order: a render never shows a queued or stale text, nor one
    of events still to come. *)
Theorem edits_are_snapshots
    (es : list Event) (e : Event) (self : AgentDisplay) (w : World) :
  let before := edits (world (updates es self w)) in
  let after := edits (world (updates (es ++ [e]) self w)) in
  (after = before
   \/ (dirty e = true
       /\ after = before ++ [_build_text (apply_events (es ++ [e]) self)]))
  /\ exists ks,
       StronglySorted Nat.lt ks
       /\ Forall (fun k => 1 <= k <= length es) ks
       /\ before
          = edits w
            ++ map (fun k => _build_text (apply_events (firstn k es) self)) ks.
Proof.
  cbv zeta. split; [apply updates_snoc_edits|]. clear e.
  induction es as [|e es IH] using rev_ind.
  - exists []. rewrite app_nil_r. repeat split; constructor.
  - destruct IH as [ks [Hs [Hall He]]].
    assert (Hmap : map (fun k => _build_text
                                   (apply_events (firstn k (es ++ [e])) self)) ks
                   = map (fun k => _build_text
                                     (apply_events (firstn k es) self)) ks).
    { apply map_ext_in. intros k Hk.
      rewrite Forall_forall in Hall. destruct (Hall k Hk) as [_ Hle].
      rewrite firstn_app.
      replace (k - length es) with 0 by lia.
      cbn [firstn]. rewrite app_nil_r. reflexivity. }
    assert (Hall' : Forall (fun k => 1 <= k <= length (es ++ [e])) ks).
    { apply Forall_forall. intros k Hk.
      rewrite Forall_forall in Hall. specialize (Hall k Hk).
      rewrite length_app. cbn [length]. lia. }
    destruct (updates_snoc_edits es e self w) as [H | [_ H]].
    + exists ks. rewrite H, Hmap. repeat split; assumption.
    + exists (ks ++ [length (es ++ [e])]). split; [|split].
      * apply StronglySorted_snoc; [exact Hs|].
        apply Forall_forall. intros k Hk.
        rewrite Forall_forall in Hall. specialize (Hall k Hk).
        rewrite length_app. cbn [length]. lia.
      * apply Forall_app. split; [exact Hall'|].
        repeat constructor. rewrite length_app. cbn [length]. lia.
      * rewrite H, He, map_app, Hmap, <- app_assoc. cbn [map].
        rewrite firstn_all. reflexivity.
Qed.

Lemma flush_thinking_idle self :
  current_thinking_buffer self = [] -> flush_thinking self = self.
Proof. intros H. unfold flush_thinking. rewrite H. reflexivity. Qed.

(** X19: A [final] event repeated has the effect of one: the log, the buffer,
    the final answer and the text are the same after two as after one. *)
Theorem final_is_idempotent
    (e : Event) (self : AgentDisplay) (w w' : World) :
  is_final e = true ->
  let s1 := display (update e self w) in
  let s2 := display (updates [e; e] self w') in
  logs s2 = logs s1
  /\ current_thinking_buffer s2 = current_thinking_buffer s1
  /\ final_response_parts s2 = final_response_parts s1
  /\ _build_text s2 = _build_text s1.
Proof.
  intros He s1 s2. subst s1 s2.
  destruct (update_display e self w) as [_ [t Ht]].
  destruct (updates_display [e; e] self w') as [_ [t' Ht']].
  rewrite Ht, Ht'. unfold apply_events. cbn [fold_left].
  assert (H : fst (apply_event e (fst (apply_event e self)))
              = fst (apply_event e self)).
  { rewrite (apply_event_final e (fst (apply_event e self)) He).
    rewrite (apply_event_final e self He). cbn [fst].
    rewrite flush_thinking_idle; [reflexivity|].
    apply flush_thinking_buffer. }
  rewrite H. repeat split.
Qed.

Lemma final_is_idempotent_witness :
  let self := set_current_thinking_buffer [lit "hm"] __init__ in
  let w := world_of [100%Q; 101%Q; 102%Q; 103%Q] 200%Q [] in
  _build_text (display (updates [ev_final (PStr (lit "c"));
                                 ev_final (PStr (lit "c"))] self w))
  = _build_text (display (update (ev_final (PStr (lit "c"))) self w)).
Proof.
  intros self w.
  apply (final_is_idempotent (ev_final (PStr (lit "c"))) self w w eq_refl).
Defined.

(** X20: A tool result that arrives while a thought is pending goes into the log
    ahead of that thought: the observation appends its entry and leaves the
    buffer, and the thought is appended by the next flushing event. *)
Theorem thought_follows_observation
    (self : AgentDisplay) (w : World) (r : pyval) (e : Event) :
  current_thinking_buffer self <> [] ->
  is_flush e = true ->
  exists rest,
    logs (display (updates [ev_observation r; e] self w))
    = logs self
      ++ (tool_result, r)
      :: (thinking, PStr (join (current_thinking_buffer self)))
      :: rest
    /\ Forall (fun entry => fst entry <> thinking) rest.
Proof.
  intros Hne He.
  destruct (updates_fields [ev_observation r; e] self w) as [Hl _].
  rewrite Hl. unfold apply_events. cbn [fold_left].
  rewrite (apply_event_observation (ev_observation r) self eq_refl).
  cbn [fst ev_observation result].
  destruct (apply_event_flush e
              (set_logs (logs self ++ [(tool_result, r)]) self) He)
    as [_ [rest [Hlogs Hrest]]].
  exists rest. split; [|exact Hrest].
  rewrite Hlogs, flush_thinking_logs by exact Hne.
  cbn [set_logs logs current_thinking_buffer].
  rewrite <- !app_assoc. reflexivity.
Qed.

Lemma thought_follows_observation_witness :
  let self := set_current_thinking_buffer [lit "hm"] __init__ in
  let w := world_of [100%Q; 101%Q; 102%Q; 103%Q] 200%Q [] in
  exists rest,
    logs (display (updates [ev_observation (PStr (lit "ok"));
                            ev_final PNone] self w))
    = (tool_result, PStr (lit "ok")) :: (thinking, PStr (lit "hm")) :: rest
    /\ Forall (fun entry => fst entry <> thinking) rest.
Proof.
  intros self w.
  apply (thought_follows_observation self w (PStr (lit "ok"))
           (ev_final PNone)).
  - discriminate.
  - reflexivity.
Defined.

(** X21: While only thinking events have arrived on a fresh display, the text
    is the quoted live line with all their fragments joined in order and
    escaped, as long as that line fits the cap. *)
Theorem thinking_preview (fs : list str) (w : World) :
  join fs <> [] ->
  length (thinking_head ++ _sanitize_html (PStr (join fs)) ++ nl) <= 2000 ->
  _build_text (display (updates (map ev_thinking fs) __init__ w))
  = quote_block (thinking_head ++ _sanitize_html (PStr (join fs)) ++ nl).
Proof.
  intros Hne Hlen.
  destruct (updates_fields (map ev_thinking fs) __init__ w)
    as [_ [_ [_ Hb]]].
  rewrite Hb.
  destruct (apply_events_thinking fs __init__) as [buf [Hs [Hj _]]].
  rewrite Hs. cbn [__init__ current_thinking_buffer app] in Hj.
  rewrite build_text_unfold. cbv zeta.
  assert (Hsec : log_section (set_current_thinking_buffer buf __init__)
                 = thinking_head ++ _sanitize_html (PStr (join fs)) ++ nl).
  { unfold log_section. cbv zeta.
    cbn [set_current_thinking_buffer current_thinking_buffer logs __init__
         fold_left].
    rewrite Hj. destruct (join fs); [congruence | reflexivity]. }
  rewrite Hsec.
  assert (Hcap : cap_log (thinking_head ++ _sanitize_html (PStr (join fs)) ++ nl)
                 = thinking_head ++ _sanitize_html (PStr (join fs)) ++ nl).
  { unfold cap_log, max_log_len.
    destruct (Nat.ltb_spec 2000
                (length (thinking_head
                         ++ _sanitize_html (PStr (join fs)) ++ nl)));
      [lia | reflexivity]. }
  rewrite Hcap.
  change (thinking_head ++ _sanitize_html (PStr (join fs)) ++ nl)
    with (240%N :: tl thinking_head ++ _sanitize_html (PStr (join fs)) ++ nl).
  cbv iota.
  cbn [set_current_thinking_buffer final_response_parts __init__ join concat
       _sanitize_html truthy negb].
  apply app_nil_r.
Qed.

Lemma thinking_preview_witness :
  let w := world_of [100%Q; 101%Q; 102%Q; 103%Q] 200%Q [] in
  _build_text (display (updates (map ev_thinking [lit "a<"; lit "b"])
                          __init__ w))
  = quote_block (thinking_head ++ lit "a&lt;b" ++ nl).
Proof.
  intros w. apply (thinking_preview [lit "a<"; lit "b"] w).
  - discriminate.
  - apply Nat.leb_le. vm_compute. reflexivity.
Defined.

(** ** The throttle over sequences of events *)

(** X22: While the clock stays inside the throttle window of the last
    successful render, no event of any kind reaches the sink: nothing is
    queued for later, so what arrives in the window is shown only if a later
    event renders. *)
Theorem window_suppresses_all_edits
    (es : list Event) (self : AgentDisplay) (w : World) :
  (forall k, reads w <= k ->
             (clock w k - last_render_time self < render_interval self)%Q) ->
  edits (world (updates es self w)) = edits w
  /\ last_render_time (display (updates es self w)) = last_render_time self.
Proof.
  revert self w. induction es as [|e es IH]; intros self w Hwin.
  - split; reflexivity.
  - rewrite updates_cons.
    destruct (apply_event_time e self) as [Ht Hi].
    destruct (dirty e) eqn:Hd.
    + rewrite (update_throttled e self w Hd (Hwin (reads w) (le_n _))).
      cbn [display world fst snd].
      destruct (IH (fst (apply_event e self)) (tick w)) as [He Hl].
      { intros k Hk. rewrite Ht, Hi. cbn [tick clock reads] in *.
        apply Hwin. lia. }
      rewrite He, Hl, Ht. split; reflexivity.
    + rewrite (update_clean e self w Hd). cbn [display world fst snd].
      destruct (IH (fst (apply_event e self)) w) as [He Hl].
      { intros k Hk. rewrite Ht, Hi. apply Hwin. exact Hk. }
      rewrite He, Hl, Ht. split; reflexivity.
Qed.

Lemma window_suppresses_all_edits_witness :
  let self := set_last_render_time 100%Q __init__ in
  let w := world_of [] 101%Q [] in
  edits (world (updates [ev_thinking (lit "a");
                         ev_observation (PStr (lit "r"));
                         ev_final (PStr (lit "c"))] self w)) = [].
Proof.
  intros self w.
  apply (window_suppresses_all_edits
           [ev_thinking (lit "a"); ev_observation (PStr (lit "r"));
            ev_final (PStr (lit "c"))] self w).
  intros k _. cbn [w world_of clock]. destruct k as [|[|k]]; reflexivity.
Defined.

(** X23: A sink that keeps raising is called again by every dirty event once the
    window has elapsed: a failure never advances the render time, so there
    is no back-off. *)
Theorem failing_sink_called_on_every_event
    (es : list Event) (self : AgentDisplay) (w : World) :
  Forall (fun e => dirty e = true) es ->
  (forall k text, sink w k text <> None) ->
  (forall k, reads w <= k ->
             (render_interval self <= clock w k - last_render_time self)%Q) ->
  length (edits (world (updates es self w))) = length (edits w) + length es
  /\ outcome (updates es self w) = Returns tt
  /\ last_render_time (display (updates es self w)) = last_render_time self.
Proof.
  revert self w. induction es as [|e es IH]; intros self w Hd Hsink Hel.
  - cbn. repeat split. lia.
  - inversion Hd as [|? ? Hde Hdes]; subst. rewrite updates_cons.
    destruct (apply_event_time e self) as [Ht Hi].
    pose proof (update_eligible e self w Hde (Hel (reads w) (le_n _))) as H.
    cbv zeta in H.
    destruct (sink w (length (edits w)) (_build_text (fst (apply_event e self))))
      eqn:Es; [|elim (Hsink _ _ Es)].
    rewrite H. cbn [display world fst snd].
    destruct (IH (fst (apply_event e self))
                (sent (_build_text (fst (apply_event e self))) (tick w)))
      as [He [Ho Hl]].
    + exact Hdes.
    + intros k text. apply Hsink.
    + intros k Hk. rewrite Ht, Hi. cbn [sent tick clock reads] in *.
      apply Hel. lia.
    + rewrite He, Ho, Hl, Ht. cbn [sent tick edits]. rewrite length_app.
      cbn [length]. repeat split. lia.
Qed.

Lemma failing_sink_called_on_every_event_witness :
  let w := {| clock := fun k => (100 + inject_Z (Z.of_nat k))%Q;
              reads := 0;
              sink := fun _ _ => Some (Exception (lit "Flood control"));
              edits := [] |} in
  length (edits (world (updates [ev_thinking (lit "a");
                                 ev_thinking (lit "b");
                                 ev_final PNone] __init__ w))) = 3.
Proof.
  intros w.
  apply (failing_sink_called_on_every_event
           [ev_thinking (lit "a"); ev_thinking (lit "b"); ev_final PNone]
           __init__ w).
  - repeat constructor.
  - intros k text. discriminate.
  - intros k _. cbn [w clock __init__ render_interval last_render_time].
    unfold Qle, Qminus, Qplus, Qopp, inject_Z. cbn [Qnum Qden]. lia.
Defined.

Lemma update_world e self w :
  clock (world (update e self w)) = clock w
  /\ reads w <= reads (world (update e self w)).
Proof.
  rewrite update_unfold.
  destruct (snd (apply_event e self)); [|split; [reflexivity | cbn; lia]].
  rewrite try_render_unfold.
  destruct (negb false && _); [split; [reflexivity | cbn; lia]|].
  destruct (sink w _ _); split; (reflexivity || cbn; lia).
Qed.

Lemma update_time_cases e self w :
  render_interval (display (update e self w)) = render_interval self
  /\ (last_render_time (display (update e self w)) = last_render_time self
      \/ (last_render_time (display (update e self w)) = clock w (S (reads w))
          /\ S (reads w) < reads (world (update e self w)))).
Proof.
  destruct (apply_event_time e self) as [Ht Hi].
  rewrite update_unfold.
  destruct (snd (apply_event e self)); [|split; [exact Hi | left; exact Ht]].
  rewrite try_render_unfold.
  destruct (negb false && _); [split; [exact Hi | left; exact Ht]|].
  destruct (sink w _ _); cbn [display world fst snd];
    [split; [exact Hi | left; exact Ht]|].
  split; [exact Hi|]. right. split; [reflexivity | cbn; lia].
Qed.

(** X24: No sequence of events changes the render interval, and the render time
    they leave is either the one they found or a clock reading taken during
    them, after an edit call. *)
Theorem throttle_state_kept (es : list Event) (self : AgentDisplay) (w : World) :
  let r := updates es self w in
  render_interval (display r) = render_interval self
  /\ (last_render_time (display r) = last_render_time self
      \/ exists k, reads w < k < reads (world r)
                   /\ last_render_time (display r) = clock w k).
Proof.
  cbv zeta. revert self w.
  assert (Hreads : forall es self w,
             clock (world (updates es self w)) = clock w
             /\ reads w <= reads (world (updates es self w))).
  { induction es0 as [|e es0 IH]; intros self w;
      [split; [reflexivity | cbn; lia]|].
    rewrite updates_cons.
    destruct (update_world e self w) as [Hc Hr].
    destruct (IH (display (update e self w)) (world (update e self w)))
      as [Hc' Hr'].
    split; [congruence | lia]. }
  induction es as [|e es IH]; intros self w.
  - split; [reflexivity | left; reflexivity].
  - rewrite updates_cons.
    destruct (update_time_cases e self w) as [Hi Hcase].
    destruct (update_world e self w) as [Hc Hr].
    destruct (Hreads es (display (update e self w)) (world (update e self w)))
      as [_ Hr'].
    destruct (IH (display (update e self w)) (world (update e self w)))
      as [Hi' Hcase'].
    split; [congruence|].
    destruct Hcase' as [Hsame | [k [Hk Hlast]]].
    + destruct Hcase as [H0 | [H1 Hlt]].
      * left. congruence.
      * right. exists (S (reads w)). split; [lia | congruence].
    + right. exists k. split; [lia|]. rewrite Hlast, Hc. reflexivity.
Qed.
